(** * AnsibleRoleDoc: role-structure extraction and tree rendering

    A shallow embedding of [_analyze_structure] and [_format_structure]
    (identical in [ansible-doc-generator.py] and [ansible-role-generator.py],
    up to the separator handed to [str.split]) together with the properties
    of the tree builder and of the renderer.

    Python strings are modelled as [string], i.e. as the list of the bytes of
    their UTF-8 encoding.  Splitting on the one-byte separator ['/'] and
    comparing strings lexicographically give the same answers on the UTF-8
    bytes as on the code points.  The separator is ['/'] in the first script
    and [os.sep] in the second, which is ['/'] on POSIX systems. *)

From Stdlib Require Import List String Ascii Bool Arith Lia Permutation Sorted.
Import ListNotations.
Local Open Scope string_scope.
Local Open Scope list_scope.

Set Implicit Arguments.
Set Warnings "-register-all".

(** ** Python values and exceptions *)

(** The structure built by [_analyze_structure] is a dynamically typed
    nesting of insertion-ordered dicts with string keys, in which the key
    ["__files__"] is meant to hold a list of strings.  Nothing in the code
    enforces that reading, so the model keeps the dynamic typing. *)
Unset Elimination Schemes.
Inductive value : Type :=
| VDict (items : list (string * value))
| VList (elems : list string).
Set Elimination Schemes.

Inductive py_error : Type :=
| AttributeError
| TypeError
| KeyError.

Inductive result (A : Type) : Type :=
| Ok (a : A)
| Raise (e : py_error).
Arguments Raise {A} e.

Definition bind {A B : Type} (c : result A) (k : A -> result B) : result B :=
  match c with
  | Ok a => k a
  | Raise e => Raise e
  end.

Notation "x <- c ;; k" := (bind c (fun x => k))
  (at level 61, c at next level, right associativity).
Notation "' p <- c ;; k" := (bind c (fun x => let 'p := x in k))
  (at level 61, p pattern, c at next level, right associativity).

Definition FILES : string := "__files__".
Arguments FILES : simpl never.

(** ** Insertion-ordered dicts as association lists *)

Module Dict.

Definition t : Type := list (string * value).

Fixpoint get (k : string) (d : t) : option value :=
  match d with
  | [] => None
  | (k', v) :: tl => if String.eqb k k' then Some v else get k tl
  end.

Definition mem (k : string) (d : t) : bool :=
  match get k d with Some _ => true | None => false end.

(** [d[k] = v]: an existing key keeps its position, a new key goes last. *)
Fixpoint set (k : string) (v : value) (d : t) : t :=
  match d with
  | [] => [(k, v)]
  | (k', v') :: tl =>
      if String.eqb k k' then (k', v) :: tl else (k', v') :: set k v tl
  end.

(** [d.pop(k, default)], the dict that is left. *)
Fixpoint remove (k : string) (d : t) : t :=
  match d with
  | [] => []
  | (k', v) :: tl =>
      if String.eqb k k' then remove k tl else (k', v) :: remove k tl
  end.

Definition keys (d : t) : list string := map fst d.

End Dict.

(** ** The operations of Python the two functions use *)

(** [k in v] *)
Definition py_in (k : string) (v : value) : bool :=
  match v with
  | VDict d => Dict.mem k d
  | VList l => existsb (String.eqb k) l
  end.

(** [v[k]] for a string [k] *)
Definition py_getitem (v : value) (k : string) : result value :=
  match v with
  | VDict d =>
      match Dict.get k d with Some x => Ok x | None => Raise KeyError end
  | VList _ => Raise TypeError
  end.

(** [v[k] = x] for a string [k] *)
Definition py_setitem (v : value) (k : string) (x : value) : result value :=
  match v with
  | VDict d => Ok (VDict (Dict.set k x d))
  | VList _ => Raise TypeError
  end.

(** [v.append(x)] *)
Definition py_append (v : value) (x : string) : result value :=
  match v with
  | VList l => Ok (VList (l ++ [x]))
  | VDict _ => Raise AttributeError
  end.

(** Truth value of a container: non-empty. *)
Definition truthy (v : value) : bool :=
  match v with
  | VDict [] => false
  | VList [] => false
  | _ => true
  end.

Definition py_len (v : value) : nat :=
  match v with
  | VDict d => List.length d
  | VList l => List.length l
  end.

(** Iterating a list gives its elements, iterating a dict its keys. *)
Definition py_iter (v : value) : list string :=
  match v with
  | VDict d => Dict.keys d
  | VList l => l
  end.

Definition nonempty (s : string) : bool :=
  match s with EmptyString => false | _ => true end.

(** [s.split(sep)] for a one-character separator: never the empty list. *)
Fixpoint split (sep : ascii) (s : string) : list string :=
  match s with
  | EmptyString => [EmptyString]
  | String c s' =>
      if Ascii.eqb c sep then EmptyString :: split sep s'
      else match split sep s' with
           | [] => [String c EmptyString]
           | hd :: tl => String c hd :: tl
           end
  end.

Definition newline : string := String (ascii_of_nat 10) EmptyString.

(** [sep.join(lines)] *)
Fixpoint join (sep : string) (lines : list string) : string :=
  match lines with
  | [] => EmptyString
  | [l] => l
  | l :: tl => (l ++ sep ++ join sep tl)%string
  end.

(** [sorted(xs)] on strings: ascending in the lexicographic order. *)
Fixpoint insert_sorted (x : string) (l : list string) : list string :=
  match l with
  | [] => [x]
  | y :: tl => if String.leb x y then x :: l else y :: insert_sorted x tl
  end.

Fixpoint sorted (l : list string) : list string :=
  match l with
  | [] => []
  | x :: tl => insert_sorted x (sorted tl)
  end.

(** ** [_analyze_structure] *)

Definition slash : ascii := "/"%char.

(** [if len(parts) > 1 and parts[0] == self.role_name: parts = parts[1:]] *)
Definition strip_role_name (role_name : string) (parts : list string)
  : list string :=
  match parts with
  | p0 :: (_ :: _) as rest => if String.eqb p0 role_name then rest else parts
  | _ => parts
  end.

(** [if k not in level: level[k] = fresh], the level afterwards. *)
Definition ensure_key (level : value) (k : string) (fresh : value)
  : result value :=
  if negb (py_in k level) then py_setitem level k fresh else Ok level.

(** The body of the file branch:
    [if "__files__" not in current_level: current_level["__files__"] = []]
    then [current_level["__files__"].append(part)].  The list is mutated in
    place, so the level holds the longer list afterwards. *)
Definition add_file (part : string) (current_level : value) : result value :=
  lvl <- ensure_key current_level FILES (VList []) ;;
  fl <- py_getitem lvl FILES ;;
  fl' <- py_append fl part ;;
  py_setitem lvl FILES fl'.

(** The loop [for i, part in enumerate(parts)], from index [i] on, with
    [n = len(parts)].  [current_level = current_level[part]] makes the
    later iterations mutate the child in place: the child the rest of the
    loop leaves is stored back under [part]. *)
Fixpoint walk (n i : nat) (parts : list string) (current_level : value)
  : result value :=
  match parts with
  | [] => Ok current_level
  | part :: rest =>
      if (i =? n - 1)%nat && nonempty part then
        lvl' <- add_file part current_level ;;
        walk n (S i) rest lvl'
      else if nonempty part then
        lvl <- ensure_key current_level part (VDict []) ;;
        child <- py_getitem lvl part ;;
        child' <- walk n (S i) rest child ;;
        py_setitem lvl part child'
      else walk n (S i) rest current_level
  end.

(** One iteration of [for file_path in file_list]. *)
Definition add_path (role_name : string) (structure : value)
  (file_path : string) : result value :=
  let parts := strip_role_name role_name (split slash file_path) in
  walk (List.length parts) 0 parts structure.

Fixpoint add_paths (role_name : string) (structure : value)
  (file_list : list string) : result value :=
  match file_list with
  | [] => Ok structure
  | file_path :: tl =>
      structure' <- add_path role_name structure file_path ;;
      add_paths role_name structure' tl
  end.

Definition _analyze_structure (role_name : string) (file_list : list string)
  : result value :=
  add_paths role_name (VDict []) file_list.

(** ** [_format_structure] *)

Definition branch (is_last : bool) : string :=
  if is_last then "└── " else "├── ".

(** The loop [for i, filename in enumerate(sorted(files))], with
    [n = len(files)]. *)
Fixpoint file_lines (first_level : bool) (indent : string) (n i : nat)
  (names : list string) : list string :=
  match names with
  | [] => []
  | filename :: tl =>
      let is_last_file := (i =? n - 1)%nat in
      (if first_level then filename
       else (indent ++ branch is_last_file ++ filename)%string)
        :: file_lines first_level indent n (S i) tl
  end.

(** The loop [for i, (key, value) in enumerate(items)] from index [i] on,
    with [n = len(items)].  [items] is taken after ["__files__"] was popped,
    so the loop sees the entries of the dict other than the marker.  The
    recursive call mutates [value] in place: the loop returns the lines
    together with the items as it leaves them.  [format] stands for the
    recursive call of [_format_structure]. *)
Section FormatItems.
Variable format : value -> string -> bool -> string -> result (string * value).
Variables (n : nat) (files : value) (prefix indent : string).

Fixpoint format_items (i : nat) (items : list (string * value))
  : result (list string * list (string * value)) :=
  match items with
  | [] => Ok ([], [])
  | (key, v) :: tl =>
      if String.eqb FILES key then format_items i tl
      else
        let first_level := negb (nonempty prefix) in
        let is_last_dir := (i =? n - 1)%nat && negb (truthy files) in
        let line :=
          if first_level then (key ++ "/")%string
          else (indent ++ branch is_last_dir ++ key ++ "/")%string in
        let new_indent :=
          if first_level then "    "
          else (indent ++ (if is_last_dir then "    " else "│   "))%string in
        '(sub, v') <-
          (if truthy v then
             '(sub_structure, v') <-
               format v (prefix ++ "/" ++ key)%string is_last_dir new_indent ;;
             Ok ([sub_structure], v')
           else Ok ([], v)) ;;
        '(more, tl') <- format_items (S i) tl ;;
        Ok (line :: sub ++ more, (key, v') :: tl')
  end.
End FormatItems.

(** [files = structure.pop("__files__", []) if "__files__" in structure
    else []] *)
Definition popped_files (d : Dict.t) : value :=
  match Dict.get FILES d with Some f => f | None => VList [] end.

(** The call returns the joined text and leaves [structure] mutated: the
    ["__files__"] entry is popped off every dict the traversal enters.  The
    model returns the text together with the structure as the call leaves
    it. *)
Fixpoint _format_structure (structure : value) (prefix : string)
  (is_last : bool) (indent : string) {struct structure}
  : result (string * value) :=
  match structure with
  | VList l =>
      (* [list.pop] takes no default; a list has no [items] *)
      if py_in FILES structure then Raise TypeError else Raise AttributeError
  | VDict d =>
      let files := popped_files d in
      let n := List.length (Dict.remove FILES d) in
      '(lines, items') <-
        format_items _format_structure n files prefix indent 0 d ;;
      let flines :=
        file_lines (negb (nonempty prefix)) indent (py_len files) 0
          (sorted (py_iter files)) in
      Ok (join newline (lines ++ flines), VDict items')
  end.

(** The text a caller gets from [self._format_structure(structure)]. *)
Definition render (structure : value) : result string :=
  '(text, _) <- _format_structure structure "" true "" ;;
  Ok text.

Definition tree_text (role_name : string) (file_list : list string)
  : result string :=
  structure <- _analyze_structure role_name file_list ;;
  render structure.

(** Two calls in a row on the same dict object: the second one gets the
    structure the first one left. *)
Definition render_twice (structure : value) : result (string * string) :=
  '(text1, structure1) <- _format_structure structure "" true "" ;;
  '(text2, _) <- _format_structure structure1 "" true "" ;;
  Ok (text1, text2).

(** ** Vocabulary for the statements *)

(** Induction on values, through the items of a dict. *)
Section ValueInd.
Variable P : value -> Prop.
Hypothesis Hdict :
  forall d, Forall (fun kv => P (snd kv)) d -> P (VDict d).
Hypothesis Hlist : forall l, P (VList l).

Fixpoint value_ind (v : value) : P v :=
  match v with
  | VDict d =>
      Hdict
        ((fix items_ind (d : list (string * value))
            : Forall (fun kv => P (snd kv)) d :=
            match d with
            | [] => Forall_nil _
            | kv :: tl => Forall_cons kv (value_ind (snd kv)) (items_ind tl)
            end) d)
  | VList l => Hlist l
  end.
End ValueInd.

Definition is_dict (v : value) : bool :=
  match v with VDict _ => true | VList _ => false end.

(** What the loop of [walk] does with a split path: the non-empty segments
    before the last one are entered as directories, and the last segment is
    appended as a file when it is not empty. *)
Definition path_dirs (parts : list string) : list string :=
  filter nonempty (removelast parts).

Definition path_file (parts : list string) : option string :=
  let l := last parts EmptyString in
  if nonempty l then Some l else None.

Fixpoint insert_entry (dirs : list string) (file : option string)
  (current_level : value) : result value :=
  match dirs with
  | [] =>
      match file with
      | Some f => add_file f current_level
      | None => Ok current_level
      end
  | part :: rest =>
      lvl <- ensure_key current_level part (VDict []) ;;
      child <- py_getitem lvl part ;;
      child' <- insert_entry rest file child ;;
      py_setitem lvl part child'
  end.

(** The parts [add_path] walks for a path. *)
Definition parts_of (role_name file_path : string) : list string :=
  strip_role_name role_name (split slash file_path).

(** The value found by following the keys [pos] down from [t]. *)
Fixpoint dir_at (t : value) (pos : list string) : option value :=
  match pos with
  | [] => Some t
  | k :: pos' =>
      match t with
      | VDict d =>
          match Dict.get k d with
          | Some child => dir_at child pos'
          | None => None
          end
      | VList _ => None
      end
  end.

(** The file names recorded at the node at [pos], in stored order. *)
Definition files_at (t : value) (pos : list string) : list string :=
  match dir_at t pos with
  | Some (VDict d) =>
      match Dict.get FILES d with
      | Some (VList l) => l
      | _ => []
      end
  | _ => []
  end.

Definition has_dir (t : value) (pos : list string) : Prop :=
  exists d, dir_at t pos = Some (VDict d).

Definition has_file (t : value) (pos : list string) (f : string) : Prop :=
  In f (files_at t pos).

(** The names of the child directories of the node at [pos], in the order
    the dict holds them. *)
Definition subdirs_at (t : value) (pos : list string) : list string :=
  match dir_at t pos with
  | Some (VDict d) => Dict.keys (Dict.remove FILES d)
  | _ => []
  end.

(** [t'] holds everything [t] holds, at the same places: lists only grow
    at the end, dicts keep their keys in place and only get new ones. *)
Inductive extends : value -> value -> Prop :=
| extends_list l l' : extends (VList l) (VList (l ++ l'))
| extends_dict d d' :
    (forall k v, Dict.get k d = Some v ->
                 exists v', Dict.get k d' = Some v' /\ extends v v') ->
    (exists more, Dict.keys d' = Dict.keys d ++ more) ->
    extends (VDict d) (VDict d').

(** What holds of every value the builder makes or walks: below a key other
    than ["__files__"] there is a dict. *)
Inductive built : value -> Prop :=
| built_list l : built (VList l)
| built_dict d :
    (forall k v, In (k, v) d ->
                 built v /\ (k <> FILES -> is_dict v = true)) ->
    built (VDict d).

(** No directory segment of the path is the marker ["__files__"]. *)
Definition marker_free (file_path : string) : Prop :=
  ~ In FILES (removelast (split slash file_path)).

(** The items a traversal leaves: the marker entry is gone, and [leave]
    says what became of each child. *)
Fixpoint strip_items (leave : value -> value) (items : list (string * value))
  : list (string * value) :=
  match items with
  | [] => []
  | (key, v) :: tl =>
      if String.eqb FILES key then strip_items leave tl
      else (key, leave v) :: strip_items leave tl
  end.

(** The structure a call of [_format_structure] leaves behind: the marker
    is gone from every dict the traversal entered. *)
Fixpoint strip_files (t : value) : value :=
  match t with
  | VList l => VList l
  | VDict d =>
      VDict (strip_items (fun v => if truthy v then strip_files v else v) d)
  end.

(** [enumerate(xs)] counting from [i]. *)
Fixpoint enumerate {A : Type} (i : nat) (xs : list A) : list (nat * A) :=
  match xs with
  | [] => []
  | x :: tl => (i, x) :: enumerate (S i) tl
  end.

(** The child the loop descends into: the one stored under [k], or the
    fresh empty dict the loop puts there. *)
Definition child_or_new (k : string) (d : Dict.t) : value :=
  match Dict.get k d with Some c => c | None => VDict [] end.

(** What holds as long as no directory is called ["__files__"]: the marker
    holds a list and every other key a dict. *)
Inductive clean : value -> Prop :=
| clean_list l : clean (VList l)
| clean_dict d :
    (forall k v, In (k, v) d ->
                 clean v /\ (is_dict v = true <-> k <> FILES)) ->
    clean (VDict d).

(** ** The layout of one level, in the words of the specification *)

Definition string_le (a b : string) : Prop := String.leb a b = true.

(** A line for a child: bare at the first level (no prefix yet), else the
    indent, the branch glyph and the name. *)
Definition entry_line (prefix indent : string) (is_last : bool)
  (name : string) : string :=
  if nonempty prefix then (indent ++ branch is_last ++ name)%string
  else name.

(** The indent handed down to the children of a directory. *)
Definition child_indent (prefix indent : string) (is_last : bool) : string :=
  if nonempty prefix
  then (indent ++ (if is_last then "    " else "│   "))%string
  else "    ".

(** The lines of a level whose children are the directories [dirs], each
    with the lines of its subtree, followed by the files [names]: the
    children are numbered through, directories first, and a child is last
    when no child comes after it. *)
Definition spec_level_lines (prefix indent : string)
  (dirs : list (string * list string)) (names : list string) : list string :=
  let total := List.length dirs + List.length names in
  List.concat
    (map (fun e =>
            entry_line prefix indent (S (fst e) =? total)%nat
              (fst (snd e) ++ "/")%string
              :: snd (snd e))
       (enumerate 0 dirs))
  ++ map (fun e => entry_line prefix indent (S (fst e) =? total)%nat (snd e))
       (enumerate (List.length dirs) names).

(** The lines below the header of the child numbered [fst e]: none for an
    empty directory, else the text of the recursive call. *)
Definition child_block (prefix indent : string) (total : nat)
  (e : nat * (string * value)) (sub : list string) : Prop :=
  let is_last := (S (fst e) =? total)%nat in
  if truthy (snd (snd e)) then
    exists text v',
      _format_structure (snd (snd e)) (prefix ++ "/" ++ fst (snd e))%string
        is_last (child_indent prefix indent is_last) = Ok (text, v')
      /\ sub = [text]
  else sub = [].

(** ** What the input says a node holds *)

Fixpoint pos_eqb (p q : list string) : bool :=
  match p, q with
  | [], [] => true
  | a :: p', b :: q' => String.eqb a b && pos_eqb p' q'
  | _, _ => false
  end.

Definition opt_list {A : Type} (o : option A) : list A :=
  match o with Some a => [a] | None => [] end.

(** The file a path with directories [ds] and file [fo] leaves at [pos]. *)
Definition file_here (pos ds : list string) (fo : option string)
  : list string :=
  if pos_eqb pos ds then opt_list fo else [].

(** The child directory a path with directories [ds] enters (or makes)
    below [pos]; the marker is not listed among the directories. *)
Fixpoint next_dir (pos ds : list string) : option string :=
  match pos, ds with
  | [], k :: _ => if String.eqb FILES k then None else Some k
  | p :: pos', k :: ds' => if String.eqb p k then next_dir pos' ds' else None
  | _, [] => None
  end.

(** A name goes to the end of the names seen so far unless it is there. *)
Definition add_new (seen : list string) (ok : option string) : list string :=
  match ok with
  | Some k => if existsb (String.eqb k) seen then seen else seen ++ [k]
  | None => seen
  end.

(** The file names the paths put at [pos], in input order, one for each
    path that ends there. *)
Definition files_for (role_name : string) (pos : list string)
  (file_list : list string) : list string :=
  flat_map (fun p =>
              file_here pos (path_dirs (parts_of role_name p))
                (path_file (parts_of role_name p)))
    file_list.

(** The names of the directories the paths enter below [pos], in the order
    in which the input first mentions them. *)
Definition subdirs_for (role_name : string) (pos : list string)
  (file_list : list string) : list string :=
  fold_left (fun seen p =>
               add_new seen (next_dir pos (path_dirs (parts_of role_name p))))
    file_list [].

(** The text of the level [d] is laid out as the specification says: the
    directories in the order the dict holds them, each followed by the
    lines of its subtree, then the files in ascending order. *)
Definition level_layout (d : Dict.t) (prefix : string) (is_last : bool)
  (indent : string) : Prop :=
  let dirs := Dict.remove FILES d in
  let stored := py_iter (popped_files d) in
  let names := sorted stored in
  exists subs t',
    Forall2 (child_block prefix indent (List.length dirs + List.length names))
      (enumerate 0 dirs) subs
    /\ _format_structure (VDict d) prefix is_last indent
       = Ok (join newline
               (spec_level_lines prefix indent
                  (combine (Dict.keys dirs) subs) names),
             t')
    /\ Sorted string_le names
    /\ Permutation names stored.

Fixpoint slash_free (s : string) : bool :=
  match s with
  | EmptyString => true
  | String c s' => negb (Ascii.eqb c slash) && slash_free s'
  end.

(** ** String operations of the helpers around the builder *)

(** [s.startswith(p)] *)
Fixpoint startswith (s p : string) {struct p} : bool :=
  match p, s with
  | EmptyString, _ => true
  | String a p', String b s' => Ascii.eqb a b && startswith s' p'
  | String _ _, EmptyString => false
  end.

(** [s.endswith(c)] for a one-character [c] *)
Fixpoint endswith_char (s : string) (c : ascii) : bool :=
  match s with
  | EmptyString => false
  | String a EmptyString => Ascii.eqb a c
  | String _ s' => endswith_char s' c
  end.

(** [s[n:]] *)
Fixpoint drop (n : nat) (s : string) : string :=
  match n, s with
  | O, _ => s
  | S k, String _ s' => drop k s'
  | S _, EmptyString => EmptyString
  end.

(** [sep in s] for a non-empty [sep] *)
Fixpoint contains (sep s : string) : bool :=
  startswith s sep
  || match s with
     | EmptyString => false
     | String _ s' => contains sep s'
     end.

(** [s.split(sep)] for a non-empty [sep] of any length: the occurrences of
    [sep] are found from the left and do not overlap.  [skip] counts the
    characters of a found occurrence that are still to be passed over. *)
Fixpoint py_split_aux (sep : string) (skip : nat) (s : string) : list string :=
  match s with
  | EmptyString => [EmptyString]
  | String c s' =>
      match skip with
      | S k => py_split_aux sep k s'
      | O =>
          if startswith s sep
          then EmptyString :: py_split_aux sep (String.length sep - 1) s'
          else match py_split_aux sep 0 s' with
               | [] => [String c EmptyString]
               | hd :: tl => String c hd :: tl
               end
      end
  end.

Definition py_split (sep s : string) : list string := py_split_aux sep 0 s.

(** [os.path.basename(p)] of [posixpath]: what follows the last ['/']. *)
Definition basename (p : string) : string := last (split slash p) EmptyString.

(** A Python dict with string keys and values of any type, for the dicts of
    the helpers: [d[k] = v] and [d.get(k)]. *)
Section Assoc.
Variable V : Type.

Fixpoint assoc_set (k : string) (v : V) (d : list (string * V))
  : list (string * V) :=
  match d with
  | [] => [(k, v)]
  | (k', v') :: tl =>
      if String.eqb k k' then (k', v) :: tl else (k', v') :: assoc_set k v tl
  end.

Fixpoint assoc_get (k : string) (d : list (string * V)) : option V :=
  match d with
  | [] => None
  | (k', v) :: tl => if String.eqb k k' then Some v else assoc_get k tl
  end.
End Assoc.

(** ** The zip script ([ansible-doc-generator.py]) around the builder *)

Module ZipScript.

(** The role name [extract_role_info] settles on: [self.role_name] is [""]
    from [__init__] and becomes the first segment of the first name of the
    listing unless that segment is empty or ["."]. *)
Definition role_name_of (file_list : list string) : string :=
  match file_list with
  | [] => EmptyString
  | first :: _ =>
      let first_item := hd EmptyString (split slash first) in
      if nonempty first_item && negb (String.eqb first_item ".")
      then first_item
      else EmptyString
  end.

(** [filename[len(templates_prefix):]] is taken only of a name that starts
    with the prefix, where passing over the bytes of the prefix and passing
    over its characters leave the same rest. *)
Definition _find_templates (role_name : string) (file_list : list string)
  : list string :=
  let templates_prefix := (role_name ++ "/templates/")%string in
  flat_map
    (fun filename =>
       if startswith filename templates_prefix
          && negb (endswith_char filename slash)
       then [drop (String.length templates_prefix) filename]
       else [])
    file_list.

(** The members of the archive.  [load name] stands for
    [yaml.safe_load(zip_ref.read(name).decode('utf-8'))] on a member of the
    archive: the parsed document, or [None] where the document is empty or
    one of the three steps raises (the [except] branch returns [None]
    too). *)
Section Members.
Variable Y : Type.
Variable load : string -> option Y.

Definition _read_yaml_file (namelist : list string) (file_path : string)
  : option Y :=
  if existsb (String.eqb file_path) namelist then load file_path else None.

Definition _read_metadata (role_name : string) (namelist : list string) :=
  _read_yaml_file namelist (role_name ++ "/meta/main.yml")%string.

Definition _read_defaults (role_name : string) (namelist : list string) :=
  _read_yaml_file namelist (role_name ++ "/defaults/main.yml")%string.

Definition _read_handlers (role_name : string) (namelist : list string) :=
  _read_yaml_file namelist (role_name ++ "/handlers/main.yml")%string.

Definition _read_tasks (role_name : string) (namelist : list string)
  : list (string * option Y) :=
  let main_tasks_path := (role_name ++ "/tasks/main.yml")%string in
  let tasks := assoc_set "main" (_read_yaml_file namelist main_tasks_path) [] in
  fold_left
    (fun tasks filename =>
       if startswith filename (role_name ++ "/tasks/")%string
          && negb (String.eqb filename main_tasks_path)
       then assoc_set (basename filename)
              (_read_yaml_file namelist filename) tasks
       else tasks)
    namelist tasks.

Definition _read_vars (role_name : string) (namelist : list string)
  : list (string * option Y) :=
  let vars_path := (role_name ++ "/vars/main.yml")%string in
  let vars_data := assoc_set "main" (_read_yaml_file namelist vars_path) [] in
  fold_left
    (fun vars_data filename =>
       if startswith filename (role_name ++ "/vars/")%string
          && negb (String.eqb filename vars_path)
       then assoc_set (basename filename)
              (_read_yaml_file namelist filename) vars_data
       else vars_data)
    namelist vars_data.

Record role_info : Type := {
  name : string;
  structure : value;
  metadata : option Y;
  defaults : option Y;
  tasks : list (string * option Y);
  templates : list string;
  handlers : option Y;
  vars : list (string * option Y)
}.

(** [extract_role_info] on an archive that opens, with the listing
    [file_list = zip_ref.namelist()]. *)
Definition extract_role_info (file_list : list string) : result role_info :=
  let role_name := role_name_of file_list in
  role_structure <- _analyze_structure role_name file_list ;;
  Ok {| name := role_name;
        structure := role_structure;
        metadata := _read_metadata role_name file_list;
        defaults := _read_defaults role_name file_list;
        tasks := _read_tasks role_name file_list;
        templates := _find_templates role_name file_list;
        handlers := _read_handlers role_name file_list;
        vars := _read_vars role_name file_list |}.
End Members.

End ZipScript.

(** ** The directory script ([ansible-role-generator.py]) around the
    builder *)

Module DirScript.

(** The loop of [_find_templates]: [None] stands for the [IndexError] that
    [filename.split(templates_prefix)[1]] raises on a list of one element. *)
Fixpoint find_templates_loop (templates_prefix : string)
  (file_list : list string) : option (list string) :=
  match file_list with
  | [] => Some []
  | filename :: tl =>
      if contains templates_prefix filename then
        match nth_error (py_split templates_prefix filename) 1 with
        | Some template_path =>
            option_map (cons template_path)
              (find_templates_loop templates_prefix tl)
        | None => None
        end
      else find_templates_loop templates_prefix tl
  end.

Definition _find_templates (role_name : string) (file_list : list string)
  : option (list string) :=
  find_templates_loop (role_name ++ "/templates/")%string file_list.

End DirScript.

(** ** The lines of a rendering, one by one *)

(** The text of [_format_structure] read as a sequence of lines: a line for
    each directory, followed by the lines of its subtree, then a line for
    each file.  The loop over the items passes over the marker as the one
    of [format_items] does; [render_level] stands for the lines of a
    child. *)
Section RenderItems.
Variable render_level : value -> string -> string -> list string.
Variables (total : nat) (prefix indent : string).

Fixpoint render_items (i : nat) (items : list (string * value))
  : list string :=
  match items with
  | [] => []
  | (key, v) :: tl =>
      if String.eqb FILES key then render_items i tl
      else
        let is_last := (S i =? total)%nat in
        entry_line prefix indent is_last (key ++ "/")%string
          :: render_level v (prefix ++ "/" ++ key)%string
               (child_indent prefix indent is_last)
          ++ render_items (S i) tl
  end.
End RenderItems.

Fixpoint render_level (node : value) (prefix indent : string) {struct node}
  : list string :=
  match node with
  | VList _ => []
  | VDict d =>
      let names := sorted (py_iter (popped_files d)) in
      let nd := List.length (Dict.remove FILES d) in
      let total := nd + List.length names in
      render_items render_level total prefix indent 0 d
      ++ map (fun e =>
                entry_line prefix indent (S (fst e) =? total)%nat (snd e))
           (enumerate nd names)
  end.

(** The directories and file entries below a node. *)
Fixpoint count_items (entries : value -> nat) (items : list (string * value))
  : nat :=
  match items with
  | [] => 0
  | (key, v) :: tl =>
      if String.eqb FILES key then count_items entries tl
      else S (entries v) + count_items entries tl
  end.

Fixpoint entries (node : value) : nat :=
  match node with
  | VList _ => 0
  | VDict d => count_items entries d + py_len (popped_files d)
  end.

(** What the builder keeps on listings without a directory called
    ["__files__"]: the marker holds a list that is not empty, every other
    key a dict of the same kind. *)
Inductive tidy : value -> Prop :=
| tidy_dict d :
    (forall k v, In (k, v) d ->
                 (k = FILES -> exists l, v = VList l /\ l <> [])
                 /\ (k <> FILES -> tidy v)) ->
    tidy (VDict d).

(** ** How often the input puts a file name at a node *)

(** The path ends at the node [pos] with the file name [f]. *)
Definition ends_at (role_name : string) (pos : list string) (f : string)
  (file_path : string) : bool :=
  pos_eqb pos (path_dirs (parts_of role_name file_path))
  && match path_file (parts_of role_name file_path) with
     | Some g => String.eqb g f
     | None => false
     end.

(** The number of listed paths that end at [pos] with the file name [f]. *)
Definition times_listed (role_name : string) (pos : list string) (f : string)
  (file_list : list string) : nat :=
  List.length (filter (ends_at role_name pos f) file_list).

(** ** The text between two occurrences of a separator *)

(** In the string [a ++ tail] no occurrence of [sep] begins at a position
    of [a]. *)
Definition starts_nowhere_in (sep a tail : string) : Prop :=
  forall a1 a2,
    a = (a1 ++ a2)%string -> a2 <> EmptyString ->
    startswith (a2 ++ tail) sep = false.

(** [t] is the text of [s] between the first occurrence of [sep] and the
    next occurrence after it, or the end of [s] when there is none. *)
Definition between_first_two (sep s t : string) : Prop :=
  exists a rest,
    s = (a ++ sep ++ t ++ rest)%string
    /\ starts_nowhere_in sep a (sep ++ t ++ rest)
    /\ starts_nowhere_in sep t rest
    /\ (rest = EmptyString \/ startswith rest sep = true).

(** ** The error monad *)

Lemma bind_ok_inv {A B : Type} (c : result A) (k : A -> result B) (b : B) :
  bind c k = Ok b -> exists a, c = Ok a /\ k a = Ok b.
Proof.
  destruct c as [a|e]; simpl; intros H; [exists a; auto | discriminate].
Qed.

Lemma bind_ret {A : Type} (c : result A) : bind c (fun a => Ok a) = c.
Proof. destruct c; reflexivity. Qed.

Ltac inv_bind H :=
  let a := fresh "x" in
  let Ha := fresh "Hx" in
  apply bind_ok_inv in H; destruct H as (a & Ha & H).

(** ** Dicts *)

Lemma get_set_same k v d : Dict.get k (Dict.set k v d) = Some v.
Proof.
  induction d as [|[k' v'] tl IH]; simpl.
  - rewrite String.eqb_refl. reflexivity.
  - destruct (String.eqb k k') eqn:E; simpl; rewrite E; auto.
Qed.

Lemma get_set_other k k' v d :
  k <> k' -> Dict.get k (Dict.set k' v d) = Dict.get k d.
Proof.
  intros Hne. induction d as [|[k0 v0] tl IH]; simpl.
  - destruct (String.eqb k k') eqn:E; auto.
    apply String.eqb_eq in E. contradiction.
  - destruct (String.eqb k' k0) eqn:E'; simpl.
    + apply String.eqb_eq in E'. subst k0.
      destruct (String.eqb k k') eqn:E; auto.
      apply String.eqb_eq in E. contradiction.
    + destruct (String.eqb k k0); auto.
Qed.

Lemma keys_set_present k v v0 d :
  Dict.get k d = Some v0 -> Dict.keys (Dict.set k v d) = Dict.keys d.
Proof.
  unfold Dict.keys. induction d as [|[k' v'] tl IH]; simpl; [discriminate|].
  destruct (String.eqb k k') eqn:E; simpl; intros H; [reflexivity|].
  f_equal. auto.
Qed.

Lemma keys_set_absent k v d :
  Dict.get k d = None -> Dict.keys (Dict.set k v d) = Dict.keys d ++ [k].
Proof.
  unfold Dict.keys. induction d as [|[k' v'] tl IH]; simpl; [reflexivity|].
  destruct (String.eqb k k') eqn:E; simpl; intros H; [discriminate|].
  f_equal. auto.
Qed.

Lemma in_set k v k' v' d :
  In (k, v) (Dict.set k' v' d) -> (k, v) = (k', v') \/ In (k, v) d.
Proof.
  induction d as [|[k0 v0] tl IH]; simpl.
  - intros [H|[]]. left. symmetry. exact H.
  - destruct (String.eqb k' k0) eqn:E; simpl.
    + apply String.eqb_eq in E. subst k0.
      intros [H|H]; [left; symmetry; exact H | right; right; exact H].
    + intros [H|H]; [right; left; exact H|].
      destruct (IH H) as [H1|H1]; [left; exact H1 | right; right; exact H1].
Qed.

Lemma get_in k v d : Dict.get k d = Some v -> In (k, v) d.
Proof.
  induction d as [|[k' v'] tl IH]; simpl; [discriminate|].
  destruct (String.eqb k k') eqn:E.
  - apply String.eqb_eq in E. subst k'. intros [= ->]. left. reflexivity.
  - intros H. right. auto.
Qed.

(** ** The loop of the builder in normal form *)

Lemma path_dirs_cons2 a b l :
  path_dirs (a :: b :: l)
  = if nonempty a then a :: path_dirs (b :: l) else path_dirs (b :: l).
Proof. reflexivity. Qed.

Lemma path_file_cons2 a b l : path_file (a :: b :: l) = path_file (b :: l).
Proof. reflexivity. Qed.

Lemma walk_cons n i part rest cur :
  walk n i (part :: rest) cur
  = if (i =? n - 1)%nat && nonempty part then
      lvl' <- add_file part cur ;; walk n (S i) rest lvl'
    else if nonempty part then
      lvl <- ensure_key cur part (VDict []) ;;
      child <- py_getitem lvl part ;;
      child' <- walk n (S i) rest child ;;
      py_setitem lvl part child'
    else walk n (S i) rest cur.
Proof. reflexivity. Qed.

Lemma walk_insert_entry parts :
  forall i cur,
    walk (i + List.length parts) i parts cur
    = insert_entry (path_dirs parts) (path_file parts) cur.
Proof.
  induction parts as [|part rest IH]; intros i cur.
  - reflexivity.
  - rewrite walk_cons. destruct rest as [|part2 rest].
    + unfold path_dirs, path_file.
      cbn [List.length walk removelast last filter].
      replace (i + 1 - 1) with i by lia.
      rewrite Nat.eqb_refl. cbn [andb].
      destruct (nonempty part); cbn [insert_entry].
      * apply bind_ret.
      * reflexivity.
    + rewrite path_dirs_cons2, path_file_cons2.
      replace (i =? i + List.length (part :: part2 :: rest) - 1)%nat
        with false
        by (symmetry; apply Nat.eqb_neq; simpl; lia).
      cbn [andb].
      replace (i + List.length (part :: part2 :: rest))
        with (S i + List.length (part2 :: rest)) by (simpl; lia).
      destruct (nonempty part).
      * cbn [insert_entry].
        destruct (ensure_key cur part (VDict [])) as [lvl|]; [|reflexivity].
        cbn [bind].
        destruct (py_getitem lvl part) as [child|]; [|reflexivity].
        cbn [bind]. rewrite IH. reflexivity.
      * apply IH.
Qed.

Lemma add_path_insert_entry role_name t file_path :
  add_path role_name t file_path
  = insert_entry (path_dirs (parts_of role_name file_path))
      (path_file (parts_of role_name file_path)) t.
Proof.
  unfold add_path, parts_of.
  apply (walk_insert_entry
           (strip_role_name role_name (split slash file_path)) 0).
Qed.

(** ** One insertion, as equations on dicts *)

Lemma set_set k v v0 d : Dict.set k v (Dict.set k v0 d) = Dict.set k v d.
Proof.
  induction d as [|[k' v'] tl IH]; simpl.
  - rewrite String.eqb_refl. reflexivity.
  - destruct (String.eqb k k') eqn:E; simpl; rewrite E; [reflexivity|].
    f_equal. exact IH.
Qed.

Lemma add_file_dict f d :
  add_file f (VDict d)
  = match Dict.get FILES d with
    | None => Ok (VDict (Dict.set FILES (VList [f]) d))
    | Some (VList l) => Ok (VDict (Dict.set FILES (VList (l ++ [f])) d))
    | Some (VDict _) => Raise AttributeError
    end.
Proof.
  unfold add_file, ensure_key, py_in, Dict.mem.
  destruct (Dict.get FILES d) as [[d0|l]|] eqn:E; simpl.
  - rewrite E. reflexivity.
  - rewrite E. reflexivity.
  - rewrite get_set_same. simpl. rewrite set_set. reflexivity.
Qed.

Lemma add_file_list f l : add_file f (VList l) = Raise TypeError.
Proof.
  unfold add_file, ensure_key, py_in.
  destruct (existsb (String.eqb FILES) l); reflexivity.
Qed.

Lemma insert_entry_dict_cons k rest fo d :
  insert_entry (k :: rest) fo (VDict d)
  = child' <- insert_entry rest fo (child_or_new k d) ;;
    Ok (VDict (Dict.set k child' d)).
Proof.
  cbn [insert_entry]. unfold ensure_key, py_in, Dict.mem, child_or_new.
  destruct (Dict.get k d) as [c|] eqn:E; simpl.
  - rewrite E. reflexivity.
  - rewrite get_set_same. cbn [bind].
    destruct (insert_entry rest fo (VDict [])); simpl; [|reflexivity].
    rewrite set_set. reflexivity.
Qed.

Lemma insert_entry_list_cons k rest fo l :
  insert_entry (k :: rest) fo (VList l) = Raise TypeError.
Proof.
  cbn [insert_entry]. unfold ensure_key, py_in.
  destruct (existsb (String.eqb k) l); reflexivity.
Qed.

Lemma insert_entry_is_dict ds fo :
  forall t t', insert_entry ds fo t = Ok t' -> is_dict t' = is_dict t.
Proof.
  destruct ds as [|k rest]; intros [d|l] t' H.
  - destruct fo as [f|]; [|injection H as <-; reflexivity].
    simpl in H. rewrite add_file_dict in H.
    destruct (Dict.get FILES d) as [[?|?]|]; try discriminate;
      injection H as <-; reflexivity.
  - destruct fo as [f|]; [|injection H as <-; reflexivity].
    simpl in H. rewrite add_file_list in H. discriminate.
  - rewrite insert_entry_dict_cons in H. inv_bind H.
    injection H as <-. reflexivity.
  - rewrite insert_entry_list_cons in H. discriminate.
Qed.

(** ** [extends] is a preorder that insertion respects *)

Lemma extends_refl : forall v, extends v v.
Proof.
  induction v as [d IH|l] using value_ind.
  - constructor.
    + intros k v Hget. exists v. split; [exact Hget|].
      rewrite Forall_forall in IH. apply (IH (k, v)). now apply get_in.
    + exists []. now rewrite app_nil_r.
  - rewrite <- (app_nil_r l) at 2. constructor.
Qed.

Lemma extends_trans : forall a b c, extends a b -> extends b c -> extends a c.
Proof.
  induction a as [d IH|l] using value_ind; intros b c Hab Hbc.
  - inversion Hab as [|? d1 Hget1 Hkeys1]; subst.
    inversion Hbc as [|? d2 Hget2 Hkeys2]; subst.
    constructor.
    + intros k v Hk.
      destruct (Hget1 k v Hk) as (v1 & Hk1 & Hv1).
      destruct (Hget2 k v1 Hk1) as (v2 & Hk2 & Hv2).
      exists v2. split; [exact Hk2|].
      rewrite Forall_forall in IH.
      apply (IH (k, v) (get_in _ _ Hk) v1 v2 Hv1 Hv2).
    + destruct Hkeys1 as [m1 E1]. destruct Hkeys2 as [m2 E2].
      exists (m1 ++ m2). rewrite E2, E1, app_assoc. reflexivity.
  - inversion Hab; subst. inversion Hbc; subst.
    rewrite <- app_assoc. constructor.
Qed.

Lemma extends_set_present k v v' d :
  Dict.get k d = Some v -> extends v v' ->
  extends (VDict d) (VDict (Dict.set k v' d)).
Proof.
  intros Hk Hv. constructor.
  - intros k0 v0 Hk0. destruct (String.eqb k0 k) eqn:E.
    + apply String.eqb_eq in E. subst k0.
      rewrite get_set_same. exists v'. split; [reflexivity|].
      congruence.
    + apply String.eqb_neq in E. rewrite (get_set_other _ _ E).
      exists v0. split; [exact Hk0 | apply extends_refl].
  - exists []. rewrite app_nil_r. now apply keys_set_present with v.
Qed.

Lemma extends_set_absent k v' d :
  Dict.get k d = None -> extends (VDict d) (VDict (Dict.set k v' d)).
Proof.
  intros Hk. constructor.
  - intros k0 v0 Hk0. assert (k0 <> k) as Hne by congruence.
    rewrite (get_set_other _ _ Hne).
    exists v0. split; [exact Hk0 | apply extends_refl].
  - exists [k]. now apply keys_set_absent.
Qed.

Lemma add_file_extends f t t' : add_file f t = Ok t' -> extends t t'.
Proof.
  destruct t as [d|l]; [rewrite add_file_dict | rewrite add_file_list];
    [|discriminate].
  destruct (Dict.get FILES d) as [[d0|l]|] eqn:E; try discriminate;
    intros [= <-].
  - apply extends_set_present with (VList l); [exact E | constructor].
  - now apply extends_set_absent.
Qed.

Lemma insert_entry_extends ds fo :
  forall t t', insert_entry ds fo t = Ok t' -> extends t t'.
Proof.
  induction ds as [|k rest IH]; intros t t' H.
  - destruct fo as [f|]; simpl in H.
    + now apply add_file_extends with f.
    + injection H as <-. apply extends_refl.
  - destruct t as [d|l];
      [rewrite insert_entry_dict_cons in H
      | rewrite insert_entry_list_cons in H; discriminate].
    inv_bind H. injection H as <-. apply IH in Hx.
    unfold child_or_new in Hx.
    destruct (Dict.get k d) as [c|] eqn:E.
    + now apply extends_set_present with c.
    + now apply extends_set_absent.
Qed.

Lemma add_paths_app role_name ps qs :
  forall t,
    add_paths role_name t (ps ++ qs)
    = t1 <- add_paths role_name t ps ;; add_paths role_name t1 qs.
Proof.
  induction ps as [|p ps IH]; intros t; simpl; [reflexivity|].
  destruct (add_path role_name t p); simpl; [apply IH | reflexivity].
Qed.

Lemma add_paths_extends role_name ps :
  forall t t', add_paths role_name t ps = Ok t' -> extends t t'.
Proof.
  induction ps as [|p ps IH]; intros t t' H; simpl in H.
  - injection H as <-. apply extends_refl.
  - inv_bind H. apply extends_trans with x; [|now apply IH].
    rewrite add_path_insert_entry in Hx.
    now apply insert_entry_extends in Hx.
Qed.

(** What [extends] means at a position. *)

Lemma extends_dir_at pos :
  forall t t' v,
    extends t t' -> dir_at t pos = Some v ->
    exists v', dir_at t' pos = Some v' /\ extends v v'.
Proof.
  induction pos as [|k pos IH]; intros t t' v Hext Hat; simpl in *.
  - injection Hat as <-. now exists t'.
  - destruct t as [d|l]; [|discriminate].
    inversion Hext as [|? d' Hget _]; subst.
    destruct (Dict.get k d) as [c|] eqn:E; [|discriminate].
    destruct (Hget k c E) as (c' & -> & Hc). now apply IH with c.
Qed.

Lemma keys_remove k d :
  Dict.keys (Dict.remove k d)
  = filter (fun x => negb (String.eqb k x)) (Dict.keys d).
Proof.
  unfold Dict.keys. induction d as [|[k' v'] tl IH]; simpl; [reflexivity|].
  destruct (String.eqb k k'); simpl; [exact IH | f_equal; exact IH].
Qed.

Lemma extends_has_dir t t' pos :
  extends t t' -> has_dir t pos -> has_dir t' pos.
Proof.
  intros Hext [d Hat].
  destruct (extends_dir_at _ Hext Hat) as (v' & Hat' & Hv).
  inversion Hv; subst. eexists. exact Hat'.
Qed.

Lemma extends_files_at t t' pos :
  extends t t' -> exists more, files_at t' pos = files_at t pos ++ more.
Proof.
  intros Hext. unfold files_at.
  destruct (dir_at t pos) as [[d|l]|] eqn:Hat; try (eexists; reflexivity).
  destruct (extends_dir_at _ Hext Hat) as (v' & -> & Hv).
  inversion Hv as [|? d' Hget _]; subst.
  destruct (Dict.get FILES d) as [[d0|l]|] eqn:E; try (eexists; reflexivity).
  destruct (Hget _ _ E) as (x & -> & Hx).
  inversion Hx; subst. eexists; reflexivity.
Qed.

Lemma extends_subdirs_at t t' pos :
  extends t t' -> exists more, subdirs_at t' pos = subdirs_at t pos ++ more.
Proof.
  intros Hext. unfold subdirs_at.
  destruct (dir_at t pos) as [[d|l]|] eqn:Hat; try (eexists; reflexivity).
  destruct (extends_dir_at _ Hext Hat) as (v' & -> & Hv).
  inversion Hv as [|? d' _ [more Hkeys]]; subst.
  rewrite !keys_remove, Hkeys, filter_app. eexists; reflexivity.
Qed.
(** ** Invariants of the builder *)

Lemma built_empty : built (VDict []).
Proof. constructor. intros k v []. Qed.

Lemma built_set k v d :
  built (VDict d) -> built v -> (k <> FILES -> is_dict v = true) ->
  built (VDict (Dict.set k v d)).
Proof.
  intros Hd Hv Hk. inversion Hd as [|? Hall]; subst. constructor.
  intros k0 v0 Hin. apply in_set in Hin as [[= -> ->]|Hin]; auto.
Qed.

Lemma built_child_or_new k d :
  built (VDict d) ->
  built (child_or_new k d) /\ (k <> FILES -> is_dict (child_or_new k d) = true).
Proof.
  intros Hd. inversion Hd as [|? Hall]; subst. unfold child_or_new.
  destruct (Dict.get k d) as [c|] eqn:E.
  - apply Hall. now apply get_in.
  - split; [apply built_empty | reflexivity].
Qed.

Lemma insert_entry_built ds fo :
  forall t t', built t -> insert_entry ds fo t = Ok t' -> built t'.
Proof.
  induction ds as [|k rest IH]; intros t t' Ht H.
  - destruct fo as [f|]; [|injection H as <-; exact Ht].
    simpl in H. destruct t as [d|l];
      [rewrite add_file_dict in H | rewrite add_file_list in H; discriminate].
    destruct (Dict.get FILES d) as [[d0|l]|]; try discriminate;
      injection H as <-;
      (apply built_set; [exact Ht | constructor | intros []; reflexivity]).
  - destruct t as [d|l];
      [rewrite insert_entry_dict_cons in H
      | rewrite insert_entry_list_cons in H; discriminate].
    inv_bind H. injection H as <-.
    destruct (built_child_or_new k Ht) as [Hc Hdict].
    apply built_set; [exact Ht | now apply IH with (child_or_new k d) |].
    intros Hk. rewrite (insert_entry_is_dict _ _ _ Hx). auto.
Qed.

Lemma add_paths_built role_name ps :
  forall t t',
    built t -> add_paths role_name t ps = Ok t' ->
    built t' /\ is_dict t' = is_dict t.
Proof.
  induction ps as [|p ps IH]; intros t t' Ht H; simpl in H.
  - injection H as <-. auto.
  - inv_bind H. rewrite add_path_insert_entry in Hx.
    destruct (IH x t') as [Hb Hd]; auto.
    + now apply insert_entry_built in Hx.
    + split; [exact Hb|]. rewrite Hd. now apply insert_entry_is_dict in Hx.
Qed.

Lemma analyze_built role_name ps t :
  _analyze_structure role_name ps = Ok t -> built t /\ is_dict t = true.
Proof.
  intros H. now apply add_paths_built with (t := VDict []) in H;
    [|apply built_empty].
Qed.

(** Without a directory called ["__files__"] nothing can go wrong. *)

Lemma clean_empty : clean (VDict []).
Proof. constructor. intros k v []. Qed.

Lemma clean_set k v d :
  clean (VDict d) -> clean v -> (is_dict v = true <-> k <> FILES) ->
  clean (VDict (Dict.set k v d)).
Proof.
  intros Hd Hv Hk. inversion Hd as [|? Hall]; subst. constructor.
  intros k0 v0 Hin. apply in_set in Hin as [[= -> ->]|Hin]; auto.
Qed.

Lemma clean_files_list d v :
  clean (VDict d) -> Dict.get FILES d = Some v -> exists l, v = VList l.
Proof.
  intros Hd Hget. inversion Hd as [|? Hall]; subst.
  destruct (Hall _ _ (get_in _ _ Hget)) as [_ Hiff].
  destruct v as [d0|l]; [|now exists l].
  destruct Hiff as [Hiff _]. now destruct (Hiff eq_refl).
Qed.

Lemma clean_child_or_new k d :
  clean (VDict d) -> k <> FILES ->
  clean (child_or_new k d) /\ is_dict (child_or_new k d) = true.
Proof.
  intros Hd Hk. inversion Hd as [|? Hall]; subst. unfold child_or_new.
  destruct (Dict.get k d) as [c|] eqn:E.
  - destruct (Hall _ _ (get_in _ _ E)) as [Hc Hiff]. split; [exact Hc|].
    now apply Hiff.
  - split; [apply clean_empty | reflexivity].
Qed.

Lemma insert_entry_total ds fo :
  ~ In FILES ds ->
  forall t, clean t -> is_dict t = true ->
  exists t', insert_entry ds fo t = Ok t' /\ clean t'.
Proof.
  induction ds as [|k rest IH]; intros Hfree [d|l] Ht Hdict;
    try discriminate.
  - destruct fo as [f|]; [|now exists (VDict d)].
    simpl. rewrite add_file_dict.
    assert (Hflag : is_dict (VList (@nil string)) = true <-> FILES <> FILES)
      by (split; [discriminate | intros []; reflexivity]).
    destruct (Dict.get FILES d) as [v|] eqn:E.
    + destruct (clean_files_list Ht E) as [l ->].
      eexists. split; [reflexivity|].
      apply clean_set; [exact Ht | constructor | exact Hflag].
    + eexists. split; [reflexivity|].
      apply clean_set; [exact Ht | constructor | exact Hflag].
  - assert (Hk : k <> FILES) by (intros ->; apply Hfree; now left).
    destruct (clean_child_or_new Ht Hk) as [Hc Hcd].
    destruct (IH (fun H => Hfree (or_intror H)) _ Hc Hcd) as (c' & Hins & Hc').
    rewrite insert_entry_dict_cons, Hins. simpl.
    eexists. split; [reflexivity|].
    apply clean_set; [exact Ht | exact Hc' |].
    rewrite (insert_entry_is_dict _ _ _ Hins), Hcd. tauto.
Qed.

Lemma path_dirs_strip role_name parts x :
  In x (path_dirs (strip_role_name role_name parts)) ->
  In x (removelast parts).
Proof.
  unfold path_dirs. intros H. apply filter_In in H as [H _]. revert H.
  destruct parts as [|p0 [|p1 rest]]; simpl; auto.
  destruct (String.eqb p0 role_name); simpl; auto.
Qed.

Lemma add_paths_total role_name ps :
  Forall marker_free ps ->
  forall t, clean t -> is_dict t = true ->
  exists t', add_paths role_name t ps = Ok t' /\ clean t'.
Proof.
  induction 1 as [|p ps Hp _ IH]; intros t Ht Hd; simpl.
  - now exists t.
  - rewrite add_path_insert_entry.
    destruct (@insert_entry_total
                (path_dirs (parts_of role_name p))
                (path_file (parts_of role_name p))) with (t := t)
      as (t1 & Hins & Ht1); auto.
    { intros Hin. apply Hp. now apply path_dirs_strip in Hin. }
    rewrite Hins. simpl. apply IH; [exact Ht1|].
    now rewrite (insert_entry_is_dict _ _ _ Hins).
Qed.

(** The builder is total on paths without a directory called
    ["__files__"]. *)
Theorem analyze_total role_name file_list :
  Forall marker_free file_list ->
  exists t, _analyze_structure role_name file_list = Ok t /\ clean t.
Proof.
  intros H. apply add_paths_total; [exact H | apply clean_empty | reflexivity].
Qed.

(** ** [sorted] sorts *)

Lemma insert_sorted_perm x l : Permutation (insert_sorted x l) (x :: l).
Proof.
  induction l as [|y tl IH]; simpl; [reflexivity|].
  destruct (String.leb x y); [reflexivity|].
  rewrite IH. apply perm_swap.
Qed.

Lemma sorted_perm l : Permutation (sorted l) l.
Proof.
  induction l as [|x tl IH]; simpl; [reflexivity|].
  rewrite insert_sorted_perm. now constructor.
Qed.

Lemma insert_sorted_hd x y l :
  string_le y x -> HdRel string_le y l -> HdRel string_le y (insert_sorted x l).
Proof.
  intros Hyx Hhd. destruct l as [|z tl]; simpl.
  - now constructor.
  - destruct (String.leb x z); constructor; [exact Hyx|].
    now inversion Hhd.
Qed.

Lemma insert_sorted_sorted x l :
  Sorted string_le l -> Sorted string_le (insert_sorted x l).
Proof.
  induction 1 as [|y tl Hs IH Hhd]; simpl.
  - repeat constructor.
  - destruct (String.leb x y) eqn:E.
    + constructor; [now constructor | now constructor].
    + constructor; [exact IH|].
      apply insert_sorted_hd; [|exact Hhd].
      destruct (String.leb_total x y) as [H|H]; [congruence | exact H].
Qed.

Lemma sorted_sorted l : Sorted string_le (sorted l).
Proof.
  induction l as [|x tl IH]; simpl; [constructor|].
  now apply insert_sorted_sorted.
Qed.

Lemma sorted_length l : List.length (sorted l) = List.length l.
Proof. apply Permutation_length, sorted_perm. Qed.

(** ** The renderer *)

Lemma py_len_iter v : py_len v = List.length (py_iter v).
Proof.
  destruct v; simpl; [unfold Dict.keys; now rewrite length_map | reflexivity].
Qed.

Lemma truthy_len v : truthy v = negb (py_len v =? 0)%nat.
Proof. destruct v as [[|? ?]|[|? ?]]; reflexivity. Qed.

Lemma format_structure_dict d prefix is_last indent :
  _format_structure (VDict d) prefix is_last indent
  = '(lines, items') <-
      format_items _format_structure (List.length (Dict.remove FILES d))
        (popped_files d) prefix indent 0 d ;;
    Ok (join newline
          (lines ++ file_lines (negb (nonempty prefix)) indent
                      (py_len (popped_files d)) 0
                      (sorted (py_iter (popped_files d)))),
        VDict items').
Proof. reflexivity. Qed.

Section Items.
Variable format : value -> string -> bool -> string -> result (string * value).
Variables (n : nat) (files : value) (prefix indent : string).

Lemma format_items_skip k v tl i :
  String.eqb FILES k = true ->
  format_items format n files prefix indent i ((k, v) :: tl)
  = format_items format n files prefix indent i tl.
Proof. intros E. cbn [format_items]. now rewrite E. Qed.

Lemma format_items_dir k v tl i :
  String.eqb FILES k = false ->
  format_items format n files prefix indent i ((k, v) :: tl)
  = let first_level := negb (nonempty prefix) in
    let is_last_dir := (i =? n - 1)%nat && negb (truthy files) in
    let line :=
      if first_level then (k ++ "/")%string
      else (indent ++ branch is_last_dir ++ k ++ "/")%string in
    let new_indent :=
      if first_level then "    "
      else (indent ++ (if is_last_dir then "    " else "│   "))%string in
    '(sub, v') <-
      (if truthy v then
         '(sub_structure, v') <-
           format v (prefix ++ "/" ++ k)%string is_last_dir new_indent ;;
         Ok ([sub_structure], v')
       else Ok ([], v)) ;;
    '(more, tl') <- format_items format n files prefix indent (S i) tl ;;
    Ok (line :: sub ++ more, (k, v') :: tl').
Proof. intros E. cbn [format_items]. now rewrite E. Qed.

Lemma format_items_remove items :
  forall i,
    format_items format n files prefix indent i items
    = format_items format n files prefix indent i (Dict.remove FILES items).
Proof.
  induction items as [|[k v] tl IH]; intros i; [reflexivity|].
  cbn [Dict.remove].
  destruct (String.eqb FILES k) eqn:E.
  - rewrite format_items_skip by exact E. apply IH.
  - rewrite !format_items_dir by exact E. cbv zeta.
    destruct (if truthy v then _ else _) as [[sub v']|]; [|reflexivity].
    cbn [bind]. rewrite IH. reflexivity.
Qed.

(** Where the recursive calls succeed and strip, the loop does. *)
Lemma format_items_strip items :
  Forall (fun kv =>
            fst kv <> FILES -> truthy (snd kv) = true ->
            forall p l ind,
            exists text,
              format (snd kv) p l ind = Ok (text, strip_files (snd kv)))
    items ->
  forall i,
  exists lines,
    format_items format n files prefix indent i items
    = Ok (lines,
          strip_items (fun v => if truthy v then strip_files v else v) items).
Proof.
  induction 1 as [|[k v] tl Hkv _ IH]; intros i.
  - now eexists.
  - cbn [strip_items]. destruct (String.eqb FILES k) eqn:E.
    + rewrite format_items_skip by exact E. apply IH.
    + rewrite format_items_dir by exact E. cbv zeta.
      apply String.eqb_neq in E.
      destruct (IH (S i)) as [more ->].
      destruct (truthy v) eqn:Tv.
      * cbn [fst snd] in Hkv.
        edestruct Hkv as [text ->]; [congruence | exact Tv |].
        cbn [bind]. now eexists.
      * cbn [bind]. now eexists.
Qed.
End Items.

(** Every structure the builder makes renders, and the call leaves it
    stripped of its markers. *)
Lemma format_structure_strip :
  forall t, built t -> is_dict t = true ->
  forall prefix is_last indent,
  exists text,
    _format_structure t prefix is_last indent = Ok (text, strip_files t).
Proof.
  induction t as [d IH|l] using value_ind; intros Hb Hd prefix is_last indent;
    [|discriminate].
  rewrite format_structure_dict.
  edestruct format_items_strip as [lines ->].
  - inversion Hb as [|? Hall]; subst.
    rewrite Forall_forall in IH |- *. intros [k v] Hin Hk Hv p l ind.
    destruct (Hall _ _ Hin) as [Hbv Hdv]. now apply (IH (k, v) Hin); auto.
  - simpl. now eexists.
Qed.

Lemma in_strip_items leave items k v :
  In (k, v) (strip_items leave items) ->
  k <> FILES /\ exists v0, In (k, v0) items /\ v = leave v0.
Proof.
  induction items as [|[k0 v0] tl IH]; cbn [strip_items]; [intros []|].
  destruct (String.eqb FILES k0) eqn:E.
  - intros H. destruct (IH H) as (Hk & x & Hin & Hx).
    split; [exact Hk|]. exists x. split; [now right | exact Hx].
  - intros [[= <- <-]|H].
    + apply String.eqb_neq in E. split; [congruence|].
      exists v0. split; [now left | reflexivity].
    + destruct (IH H) as (Hk & x & Hin & Hx).
      split; [exact Hk|]. exists x. split; [now right | exact Hx].
Qed.

Lemma strip_files_is_dict t : is_dict (strip_files t) = is_dict t.
Proof. destruct t; reflexivity. Qed.

Lemma strip_files_built : forall t, built t -> built (strip_files t).
Proof.
  induction t as [d IH|l] using value_ind; intros Hb; [|constructor].
  inversion Hb as [|? Hall]; subst. cbn [strip_files]. constructor.
  rewrite Forall_forall in IH. intros k v Hin.
  apply in_strip_items in Hin as (Hk & v0 & Hin & ->).
  destruct (Hall k v0 Hin) as [Hbv Hdv].
  destruct (truthy v0); [|now split].
  split; [now apply (IH (k, v0)) | now rewrite strip_files_is_dict].
Qed.

Lemma strip_items_id leave items :
  Forall (fun kv => fst kv <> FILES /\ leave (snd kv) = snd kv) items ->
  strip_items leave items = items.
Proof.
  induction 1 as [|[k v] tl [Hk Hv] _ IH]; cbn [strip_items]; [reflexivity|].
  cbn [fst snd] in Hk, Hv. apply String.eqb_neq in Hk.
  rewrite String.eqb_sym, Hk, Hv, IH. reflexivity.
Qed.

(** A stripped structure has nothing left to strip. *)
Lemma strip_files_idem : forall t, strip_files (strip_files t) = strip_files t.
Proof.
  induction t as [d IH|l] using value_ind; [|reflexivity].
  cbn [strip_files]. f_equal. apply strip_items_id.
  rewrite Forall_forall in IH |- *. intros [k v] Hin.
  apply in_strip_items in Hin as (Hk & v0 & Hin & ->).
  cbn [fst snd]. split; [exact Hk|].
  destruct (truthy v0) eqn:Tv; [|now rewrite Tv].
  destruct (truthy (strip_files v0)); [|reflexivity].
  now apply (IH (k, v0)).
Qed.

(** ** The layout of a level *)

Lemma last_dir_flag i nd nf :
  i < nd ->
  ((i =? nd - 1)%nat && negb (negb (nf =? 0)%nat)) = (S i =? nd + nf)%nat.
Proof.
  intros Hi. destruct (Nat.eqb_spec nf 0) as [->|Hnf]; cbn [negb].
  - rewrite andb_true_r, Nat.add_0_r.
    destruct (Nat.eqb_spec i (nd - 1)), (Nat.eqb_spec (S i) nd);
      reflexivity || lia.
  - rewrite andb_false_r. symmetry. apply Nat.eqb_neq. lia.
Qed.

Lemma last_file_flag j nd nf :
  j < nf -> (j =? nf - 1)%nat = (S (nd + j) =? nd + nf)%nat.
Proof.
  intros Hj.
  destruct (Nat.eqb_spec j (nf - 1)), (Nat.eqb_spec (S (nd + j)) (nd + nf));
    reflexivity || lia.
Qed.

Lemma file_lines_layout prefix indent nd nf names :
  forall j,
    j + List.length names = nf ->
    file_lines (negb (nonempty prefix)) indent nf j names
    = map (fun e =>
             entry_line prefix indent (S (fst e) =? nd + nf)%nat (snd e))
        (enumerate (nd + j) names).
Proof.
  induction names as [|name tl IH]; intros j Hj; [reflexivity|].
  cbn [file_lines enumerate map fst snd List.length] in *.
  rewrite (@last_file_flag j nd nf) by lia.
  rewrite IH by lia. rewrite Nat.add_succ_r.
  unfold entry_line at 2. now destruct (nonempty prefix).
Qed.

Lemma enumerate_length {A : Type} (xs : list A) :
  forall i, List.length (enumerate i xs) = List.length xs.
Proof. induction xs; intros i; simpl; auto. Qed.

Lemma format_items_layout files prefix indent nd nf items :
  truthy files = negb (nf =? 0)%nat ->
  Forall (fun kv => fst kv <> FILES) items ->
  Forall (fun kv =>
            truthy (snd kv) = true ->
            forall p l ind,
            exists r, _format_structure (snd kv) p l ind = Ok r) items ->
  forall i,
    i + List.length items = nd ->
    exists subs items',
      Forall2 (child_block prefix indent (nd + nf)) (enumerate i items) subs
      /\ format_items _format_structure nd files prefix indent i items
         = Ok (List.concat
                 (map (fun e =>
                         entry_line prefix indent (S (fst e) =? nd + nf)%nat
                           (fst (snd e) ++ "/")%string
                           :: snd (snd e))
                    (enumerate i (combine (map fst items) subs))),
               items').
Proof.
  intros Hfiles Hkeys. induction Hkeys as [|[k v] tl Hk _ IH];
    intros Hok i Hi.
  - exists [], []. split; [constructor | reflexivity].
  - apply Forall_cons_iff in Hok as [Hv Htl]. cbn [fst snd List.length] in *.
    destruct (IH Htl (S i)) as (subs & tl' & Hsubs & Hrun); [lia|].
    rewrite format_items_dir
      by (apply String.eqb_neq; congruence).
    cbv zeta. rewrite Hrun, Hfiles, (@last_dir_flag i nd nf) by lia.
    assert (Hline :
      (if negb (nonempty prefix) then (k ++ "/")%string
       else (indent ++ branch (S i =? nd + nf)%nat ++ k ++ "/")%string)
      = entry_line prefix indent (S i =? nd + nf)%nat (k ++ "/")%string)
      by (unfold entry_line; now destruct (nonempty prefix)).
    assert (Hind :
      (if negb (nonempty prefix) then "    "
       else (indent ++ (if (S i =? nd + nf)%nat then "    " else "│   "))%string)
      = child_indent prefix indent (S i =? nd + nf)%nat)
      by (unfold child_indent; now destruct (nonempty prefix)).
    rewrite Hline, Hind.
    destruct (truthy v) eqn:Tv.
    + destruct (Hv eq_refl (prefix ++ "/" ++ k)%string (S i =? nd + nf)%nat
                  (child_indent prefix indent (S i =? nd + nf)%nat))
        as [[text v'] Hcall].
      rewrite Hcall. cbn [bind].
      exists ([text] :: subs), ((k, v') :: tl'). split; [|reflexivity].
      constructor; [|exact Hsubs].
      unfold child_block. cbn [fst snd]. rewrite Tv. now exists text, v'.
    + cbn [bind].
      exists ([] :: subs), ((k, v) :: tl'). split; [|reflexivity].
      constructor; [|exact Hsubs].
      unfold child_block. cbn [fst snd]. now rewrite Tv.
Qed.

Lemma remove_no_files d :
  Forall (fun kv => fst kv <> FILES) (Dict.remove FILES d).
Proof.
  induction d as [|[k v] tl IH]; cbn [Dict.remove]; [constructor|].
  destruct (String.eqb FILES k) eqn:E; [exact IH|].
  constructor; [|exact IH]. apply String.eqb_neq in E. cbn [fst]. congruence.
Qed.

Lemma in_remove k v k0 d : In (k, v) (Dict.remove k0 d) -> In (k, v) d.
Proof.
  induction d as [|[k' v'] tl IH]; cbn [Dict.remove]; [intros []|].
  destruct (String.eqb k0 k'); [intros H; right; auto|].
  intros [H|H]; [now left | right; auto].
Qed.

Lemma Forall2_length_eq {A B : Type} (R : A -> B -> Prop) l l' :
  Forall2 R l l' -> List.length l = List.length l'.
Proof. induction 1; simpl; congruence. Qed.

(** The renderer lays every level of a built structure out as the
    specification says. *)
Lemma level_layout_built d prefix is_last indent :
  built (VDict d) -> level_layout d prefix is_last indent.
Proof.
  intros Hb. unfold level_layout.
  set (dirs := Dict.remove FILES d).
  set (names := sorted (py_iter (popped_files d))).
  assert (Hnf : py_len (popped_files d) = List.length names)
    by (unfold names; now rewrite sorted_length, py_len_iter).
  destruct (@format_items_layout (popped_files d) prefix indent
              (List.length dirs) (List.length names) dirs)
    with (i := 0) as (subs & items' & Hsubs & Hrun).
  - now rewrite truthy_len, Hnf.
  - apply remove_no_files.
  - pose proof (remove_no_files d) as Hkeys.
    rewrite Forall_forall in Hkeys |- *. intros [k v] Hin Tv p l ind.
    specialize (Hkeys _ Hin). apply in_remove in Hin.
    inversion Hb as [|? Hall]; subst. destruct (Hall _ _ Hin) as [Hbv Hdv].
    destruct (@format_structure_strip v Hbv (Hdv Hkeys) p l ind) as [text Ht].
    eexists. exact Ht.
  - reflexivity.
  - exists subs, (VDict items').
    split; [exact Hsubs|]. split; [|split].
    + rewrite format_structure_dict, format_items_remove.
      fold dirs. rewrite Hrun. cbn [bind]. fold names. rewrite Hnf.
      rewrite (@file_lines_layout prefix indent (List.length dirs))
        by reflexivity.
      unfold spec_level_lines.
      assert (Hlen : List.length (combine (Dict.keys dirs) subs)
                     = List.length dirs).
      { apply Forall2_length_eq in Hsubs.
        rewrite enumerate_length in Hsubs.
        unfold Dict.keys. rewrite length_combine, length_map. lia. }
      rewrite Hlen, Nat.add_0_r. reflexivity.
    + apply sorted_sorted.
    + apply sorted_perm.
Qed.

Lemma dir_at_built pos :
  forall t v, built t -> dir_at t pos = Some v -> built v.
Proof.
  induction pos as [|k pos IH]; intros t v Hb Hat; simpl in Hat.
  - now injection Hat as <-.
  - destruct t as [d|l]; [|discriminate].
    destruct (Dict.get k d) as [c|] eqn:E; [|discriminate].
    inversion Hb as [|? Hall]; subst.
    apply IH with c; [|exact Hat]. now apply (Hall k c), get_in.
Qed.

(** ** What one insertion changes, position by position *)

Lemma pos_eqb_eq p : forall q, pos_eqb p q = true <-> p = q.
Proof.
  induction p as [|a p IH]; intros [|b q]; simpl; split; try easy.
  - intros H. apply andb_true_iff in H as [Hab Hpq].
    apply String.eqb_eq in Hab. apply IH in Hpq. congruence.
  - intros [= -> ->]. rewrite String.eqb_refl. now apply IH.
Qed.

Lemma files_at_list l pos : files_at (VList l) pos = [].
Proof. unfold files_at. now destruct pos. Qed.

Lemma subdirs_at_list l pos : subdirs_at (VList l) pos = [].
Proof. unfold subdirs_at. now destruct pos. Qed.

Lemma files_at_cons d k pos :
  files_at (VDict d) (k :: pos)
  = match Dict.get k d with Some c => files_at c pos | None => [] end.
Proof. unfold files_at. simpl. now destruct (Dict.get k d). Qed.

Lemma subdirs_at_cons d k pos :
  subdirs_at (VDict d) (k :: pos)
  = match Dict.get k d with Some c => subdirs_at c pos | None => [] end.
Proof. unfold subdirs_at. simpl. now destruct (Dict.get k d). Qed.

Lemma files_at_child_or_new d k pos :
  files_at (VDict d) (k :: pos) = files_at (child_or_new k d) pos.
Proof.
  rewrite files_at_cons. unfold child_or_new.
  destruct (Dict.get k d); [reflexivity | now destruct pos].
Qed.

Lemma subdirs_at_child_or_new d k pos :
  subdirs_at (VDict d) (k :: pos) = subdirs_at (child_or_new k d) pos.
Proof.
  rewrite subdirs_at_cons. unfold child_or_new.
  destruct (Dict.get k d); [reflexivity | now destruct pos].
Qed.

Lemma files_at_root d :
  files_at (VDict d) []
  = match Dict.get FILES d with Some (VList l) => l | _ => [] end.
Proof. reflexivity. Qed.

Lemma remove_set_same k v d :
  Dict.remove k (Dict.set k v d) = Dict.remove k d.
Proof.
  induction d as [|[k' v'] tl IH]; cbn [Dict.set Dict.remove].
  - now rewrite String.eqb_refl.
  - destruct (String.eqb k k') eqn:E; cbn [Dict.remove]; rewrite E;
      [reflexivity | now rewrite IH].
Qed.

Lemma remove_set_other k k' v d :
  k <> k' ->
  Dict.remove k (Dict.set k' v d) = Dict.set k' v (Dict.remove k d).
Proof.
  intros Hne. induction d as [|[k0 v0] tl IH]; cbn [Dict.set Dict.remove].
  - apply String.eqb_neq in Hne. now rewrite Hne.
  - destruct (String.eqb k' k0) eqn:E'; cbn [Dict.remove].
    + apply String.eqb_eq in E'. subst k0.
      apply String.eqb_neq in Hne. rewrite Hne.
      cbn [Dict.set]. now rewrite String.eqb_refl.
    + destruct (String.eqb k k0) eqn:E; [exact IH|].
      cbn [Dict.set]. now rewrite E', IH.
Qed.

Lemma existsb_keys k d :
  existsb (String.eqb k) (Dict.keys d)
  = match Dict.get k d with Some _ => true | None => false end.
Proof.
  unfold Dict.keys. induction d as [|[k' v'] tl IH]; simpl; [reflexivity|].
  destruct (String.eqb k k'); simpl; [reflexivity | exact IH].
Qed.

Lemma keys_set k v d :
  Dict.keys (Dict.set k v d) = add_new (Dict.keys d) (Some k).
Proof.
  unfold add_new. rewrite existsb_keys.
  destruct (Dict.get k d) eqn:E.
  - now apply keys_set_present with v0.
  - now apply keys_set_absent.
Qed.

(** The file lists: the path adds its file where it ends, and nothing
    anywhere else. *)
Lemma insert_entry_files_at ds fo :
  forall t t' pos,
    insert_entry ds fo t = Ok t' ->
    files_at t' pos = files_at t pos ++ file_here pos ds fo.
Proof.
  unfold file_here.
  induction ds as [|k rest IH]; intros t t' pos H.
  - destruct fo as [f|]; cbn [insert_entry] in H.
    2:{ injection H as <-. destruct pos; cbn [pos_eqb opt_list];
        now rewrite app_nil_r. }
    destruct t as [d|l];
      [rewrite add_file_dict in H | rewrite add_file_list in H; discriminate].
    assert (exists l,
               t' = VDict (Dict.set FILES (VList (l ++ [f])) d)
               /\ files_at (VDict d) [] = l
               /\ (Dict.get FILES d = None \/ Dict.get FILES d = Some (VList l)))
      as (l & -> & Hroot & Hget).
    { rewrite files_at_root.
      destruct (Dict.get FILES d) as [[d0|l]|]; try discriminate;
        injection H as <-; [exists l | exists []]; auto. }
    destruct pos as [|k pos]; cbn [pos_eqb opt_list].
    + rewrite files_at_root, get_set_same. now rewrite Hroot.
    + rewrite app_nil_r, !files_at_cons.
      destruct (String.eqb k FILES) eqn:E.
      * apply String.eqb_eq in E. subst k. rewrite get_set_same.
        rewrite files_at_list. destruct Hget as [-> | ->];
          [reflexivity | now rewrite files_at_list].
      * apply String.eqb_neq in E. now rewrite get_set_other.
  - destruct t as [d|l];
      [rewrite insert_entry_dict_cons in H
      | rewrite insert_entry_list_cons in H; discriminate].
    inv_bind H. injection H as <-. rename x into child'.
    destruct pos as [|k0 pos]; cbn [pos_eqb].
    + rewrite app_nil_r, !files_at_root.
      destruct (String.eqb FILES k) eqn:E.
      * apply String.eqb_eq in E. subst k. rewrite get_set_same.
        pose proof (insert_entry_is_dict _ _ _ Hx) as Hd.
        unfold child_or_new in Hx, Hd.
        destruct (Dict.get FILES d) as [[d0|l]|] eqn:Eg.
        -- destruct child'; [reflexivity | discriminate].
        -- destruct rest; [|rewrite insert_entry_list_cons in Hx; discriminate].
           destruct fo; cbn [insert_entry] in Hx;
             [rewrite add_file_list in Hx; discriminate|].
           now injection Hx as <-.
        -- destruct child'; [reflexivity | discriminate].
      * apply String.eqb_neq in E. now rewrite get_set_other.
    + destruct (String.eqb k0 k) eqn:E; cbn [andb].
      * apply String.eqb_eq in E. subst k0.
        rewrite (files_at_child_or_new d), files_at_cons, get_set_same.
        now apply IH.
      * apply String.eqb_neq in E.
        now rewrite app_nil_r, !files_at_cons, get_set_other.
Qed.

Lemma subdirs_at_root d :
  subdirs_at (VDict d) [] = Dict.keys (Dict.remove FILES d).
Proof. reflexivity. Qed.

Lemma next_dir_nil pos : next_dir pos [] = None.
Proof. now destruct pos. Qed.

(** The directory lists: the path adds the directory it enters below a
    node at the end of that node's list, unless it is there already. *)
Lemma insert_entry_subdirs_at ds fo :
  forall t t' pos,
    insert_entry ds fo t = Ok t' ->
    subdirs_at t' pos = add_new (subdirs_at t pos) (next_dir pos ds).
Proof.
  induction ds as [|k rest IH]; intros t t' pos H.
  - rewrite next_dir_nil. cbn [add_new].
    destruct fo as [f|]; cbn [insert_entry] in H;
      [|now injection H as <-].
    destruct t as [d|l];
      [rewrite add_file_dict in H | rewrite add_file_list in H; discriminate].
    assert (exists l,
               t' = VDict (Dict.set FILES (VList (l ++ [f])) d)
               /\ (Dict.get FILES d = None \/ Dict.get FILES d = Some (VList l)))
      as (l & -> & Hget).
    { destruct (Dict.get FILES d) as [[d0|l]|]; try discriminate;
        injection H as <-; [exists l | exists []]; auto. }
    destruct pos as [|k pos].
    + now rewrite !subdirs_at_root, remove_set_same.
    + rewrite !subdirs_at_cons. destruct (String.eqb k FILES) eqn:E.
      * apply String.eqb_eq in E. subst k. rewrite get_set_same.
        rewrite subdirs_at_list. destruct Hget as [-> | ->];
          [reflexivity | now rewrite subdirs_at_list].
      * apply String.eqb_neq in E. now rewrite get_set_other.
  - destruct t as [d|l];
      [rewrite insert_entry_dict_cons in H
      | rewrite insert_entry_list_cons in H; discriminate].
    inv_bind H. injection H as <-. rename x into child'.
    destruct pos as [|k0 pos]; cbn [next_dir].
    + rewrite !subdirs_at_root. destruct (String.eqb FILES k) eqn:E.
      * apply String.eqb_eq in E. subst k. now rewrite remove_set_same.
      * apply String.eqb_neq in E.
        now rewrite remove_set_other, keys_set.
    + destruct (String.eqb k0 k) eqn:E.
      * apply String.eqb_eq in E. subst k0.
        rewrite (subdirs_at_child_or_new d), subdirs_at_cons, get_set_same.
        now apply IH.
      * apply String.eqb_neq in E.
        now rewrite !subdirs_at_cons, get_set_other.
Qed.

Lemma add_paths_files_at role_name ps :
  forall t t' pos,
    add_paths role_name t ps = Ok t' ->
    files_at t' pos = files_at t pos ++ files_for role_name pos ps.
Proof.
  unfold files_for.
  induction ps as [|p ps IH]; intros t t' pos H; cbn [add_paths] in H.
  - injection H as <-. cbn [flat_map]. now rewrite app_nil_r.
  - inv_bind H. rewrite add_path_insert_entry in Hx.
    rewrite (IH _ _ pos H), (insert_entry_files_at _ _ _ pos Hx).
    cbn [flat_map]. now rewrite app_assoc.
Qed.

Lemma add_paths_subdirs_at role_name ps :
  forall t t' pos,
    add_paths role_name t ps = Ok t' ->
    subdirs_at t' pos
    = fold_left (fun seen p =>
                   add_new seen
                     (next_dir pos (path_dirs (parts_of role_name p))))
        ps (subdirs_at t pos).
Proof.
  induction ps as [|p ps IH]; intros t t' pos H; cbn [add_paths] in H.
  - now injection H as <-.
  - inv_bind H. rewrite add_path_insert_entry in Hx.
    rewrite (IH _ _ pos H), (insert_entry_subdirs_at _ _ _ pos Hx).
    reflexivity.
Qed.

(** The file list of every node is what the input says, in input order and
    with one entry for each path that ends there. *)
Theorem analyze_files_at role_name file_list t pos :
  _analyze_structure role_name file_list = Ok t ->
  files_at t pos = files_for role_name pos file_list.
Proof.
  intros H. rewrite (add_paths_files_at _ _ _ pos H). now destruct pos.
Qed.

(** The directories of every node are listed in the order in which the
    input first mentions them. *)
Theorem analyze_subdirs_at role_name file_list t pos :
  _analyze_structure role_name file_list = Ok t ->
  subdirs_at t pos = subdirs_for role_name pos file_list.
Proof.
  intros H. rewrite (add_paths_subdirs_at _ _ _ pos H). now destruct pos.
Qed.

(** ** Reordering the input *)

Lemma in_add_new k seen ok :
  In k (add_new seen ok) <-> In k seen \/ ok = Some k.
Proof.
  destruct ok as [k0|]; cbn [add_new].
  2:{ split; [auto | intros [H|H]; [exact H | discriminate]]. }
  destruct (existsb (String.eqb k0) seen) eqn:E.
  - split; [auto|]. intros [H|[= ->]]; [exact H|].
    apply existsb_exists in E as (x & Hin & Hx).
    apply String.eqb_eq in Hx. now subst x.
  - rewrite in_app_iff. cbn [In]. split.
    + intros [H|[->|[]]]; auto.
    + intros [H|[= ->]]; auto.
Qed.

Lemma in_fold_add_new {A : Type} (g : A -> option string) k xs :
  forall seen,
    In k (fold_left (fun seen x => add_new seen (g x)) xs seen)
    <-> In k seen \/ exists x, In x xs /\ g x = Some k.
Proof.
  induction xs as [|x xs IH]; intros seen; cbn [fold_left].
  - split; [auto | intros [H|(x & [] & _)]; exact H].
  - rewrite IH, in_add_new. split.
    + intros [[H|H]|(y & Hy & Hg)]; auto.
      * right. exists x. split; [now left | exact H].
      * right. exists y. split; [now right | exact Hg].
    + intros [H|(y & [<-|Hy] & Hg)]; auto.
      right. now exists y.
Qed.

(** Both orders of a reordered input give every node the same files (as
    many times each) and the same directories, when both build. *)
Theorem analyze_permutation role_name ps qs t u :
  Permutation ps qs ->
  _analyze_structure role_name ps = Ok t ->
  _analyze_structure role_name qs = Ok u ->
  forall pos,
    Permutation (files_at t pos) (files_at u pos)
    /\ (forall k, In k (subdirs_at t pos) <-> In k (subdirs_at u pos)).
Proof.
  intros Hperm Ht Hu pos.
  rewrite (analyze_files_at _ _ pos Ht), (analyze_files_at _ _ pos Hu).
  rewrite (analyze_subdirs_at _ _ pos Ht), (analyze_subdirs_at _ _ pos Hu).
  split.
  - unfold files_for. now apply Permutation_flat_map.
  - intros k. unfold subdirs_for. rewrite !in_fold_add_new.
    split; intros [[]|(x & Hin & Hx)]; right; exists x; split; auto.
    + now apply Permutation_in with ps.
    + apply Permutation_in with qs; [now symmetry | exact Hin].
Qed.

(** ** Paths and the role name *)

Lemma split_slash_free r : slash_free r = true -> split slash r = [r].
Proof.
  induction r as [|c r IH]; simpl; [reflexivity|].
  intros H. apply andb_true_iff in H as [Hc Hr].
  apply negb_true_iff in Hc. rewrite Hc, (IH Hr). reflexivity.
Qed.

Lemma split_app_slash r s :
  slash_free r = true ->
  split slash (r ++ String slash s) = r :: split slash s.
Proof.
  induction r as [|c r IH]; simpl.
  - reflexivity.
  - intros H. apply andb_true_iff in H as [Hc Hr].
    apply negb_true_iff in Hc. rewrite Hc, (IH Hr). reflexivity.
Qed.

Lemma split_not_nil sep s : split sep s <> [].
Proof.
  destruct s as [|c s]; simpl; [discriminate|].
  destruct (Ascii.eqb c sep); [discriminate|].
  destruct (split sep s); discriminate.
Qed.

Lemma next_dir_app pre k post :
  next_dir pre (pre ++ k :: post)
  = if String.eqb FILES k then None else Some k.
Proof.
  induction pre as [|p pre IH]; cbn [next_dir app]; [reflexivity|].
  now rewrite String.eqb_refl.
Qed.

Lemma pos_eqb_refl p : pos_eqb p p = true.
Proof. now apply pos_eqb_eq. Qed.

(** A path whose segments are all empty has neither directories nor a
    file. *)
Lemma all_empty_path parts :
  Forall (eq EmptyString) parts ->
  path_dirs parts = [] /\ path_file parts = None.
Proof.
  intros H. split.
  - unfold path_dirs.
    assert (Forall (eq EmptyString) (removelast parts)) as H'.
    { rewrite Forall_forall in H |- *. intros x Hx. apply H.
      clear H. induction parts as [|a [|b tl] IH]; simpl in *; try easy.
      destruct Hx as [Hx|Hx]; auto. }
    induction H' as [|x l <- _ IH]; [reflexivity | exact IH].
  - unfold path_file.
    assert (last parts EmptyString = EmptyString) as ->; [|reflexivity].
    induction H as [|x [|y l] <- Hl IH]; try reflexivity. exact IH.
Qed.

Lemma strip_all_empty role_name parts :
  Forall (eq EmptyString) parts ->
  Forall (eq EmptyString) (strip_role_name role_name parts).
Proof.
  intros H. destruct parts as [|p0 [|p1 rest]]; simpl; auto.
  destruct (String.eqb p0 role_name); [now inversion H | exact H].
Qed.

(** ** What a traversal leaves *)

Lemma get_strip_items_files leave items :
  Dict.get FILES (strip_items leave items) = None.
Proof.
  induction items as [|[k v] tl IH]; cbn [strip_items]; [reflexivity|].
  destruct (String.eqb FILES k) eqn:E; [exact IH|].
  cbn [Dict.get]. now rewrite E.
Qed.

Lemma files_at_falsy v pos : truthy v = false -> files_at v pos = [].
Proof.
  destruct v as [[|? ?]|[|? ?]]; try discriminate; intros _.
  - now destruct pos.
  - apply files_at_list.
Qed.

(** No file name is left anywhere in a stripped structure. *)
Lemma files_at_strip : forall t pos, files_at (strip_files t) pos = [].
Proof.
  induction t as [d IH|l] using value_ind; intros pos;
    [|apply files_at_list].
  cbn [strip_files]. destruct pos as [|k pos].
  - now rewrite files_at_root, get_strip_items_files.
  - rewrite files_at_cons.
    destruct (Dict.get k (strip_items _ d)) as [c|] eqn:E; [|reflexivity].
    apply get_in, in_strip_items in E as (_ & v0 & Hin & ->).
    rewrite Forall_forall in IH.
    destruct (truthy v0) eqn:Tv.
    + apply (IH (k, v0) Hin).
    + now apply files_at_falsy.
Qed.

Lemma file_lines_length first_level indent n names :
  forall i,
    List.length (file_lines first_level indent n i names) = List.length names.
Proof. induction names; intros i; simpl; auto. Qed.

(** On paths without a directory called ["__files__"] every order builds,
    and all orders agree on the files and directories of every node. *)
Theorem analyze_permutation_total role_name ps qs :
  Forall marker_free ps ->
  Permutation ps qs ->
  exists t u,
    _analyze_structure role_name ps = Ok t
    /\ _analyze_structure role_name qs = Ok u
    /\ forall pos,
         Permutation (files_at t pos) (files_at u pos)
         /\ (forall k, In k (subdirs_at t pos) <-> In k (subdirs_at u pos)).
Proof.
  intros Hfree Hperm.
  destruct (analyze_total role_name Hfree) as (t & Ht & _).
  destruct (analyze_total role_name (Permutation_Forall Hperm Hfree))
    as (u & Hu & _).
  exists t, u. split; [exact Ht|]. split; [exact Hu|].
  now apply analyze_permutation with role_name ps qs.
Qed.

(** A path that went in once goes in again, also after other paths. *)
Lemma insert_entry_again ds fo :
  forall t t' u,
    insert_entry ds fo t = Ok t' -> extends t' u ->
    exists u', insert_entry ds fo u = Ok u'.
Proof.
  induction ds as [|k rest IH]; intros t t' u H Hext.
  - destruct fo as [f|]; [|now exists u].
    cbn [insert_entry] in *.
    destruct t as [d|l];
      [rewrite add_file_dict in H | rewrite add_file_list in H; discriminate].
    assert (exists l, t' = VDict (Dict.set FILES (VList l) d)) as [l ->]
      by (destruct (Dict.get FILES d) as [[d0|l]|]; try discriminate;
          injection H as <-; eexists; reflexivity).
    inversion Hext as [|? du Hget _]; subst.
    destruct (Hget FILES _ (get_set_same _ _ _)) as (v' & Hv' & Hl).
    inversion Hl; subst. rewrite add_file_dict, Hv'. now eexists.
  - destruct t as [d|l];
      [rewrite insert_entry_dict_cons in H
      | rewrite insert_entry_list_cons in H; discriminate].
    inv_bind H. injection H as <-. rename x into child'.
    inversion Hext as [|? du Hget _]; subst.
    destruct (Hget k _ (get_set_same _ _ _)) as (cu & Hcu & Hchild).
    destruct (IH _ _ _ Hx Hchild) as [cu' Hcu'].
    rewrite insert_entry_dict_cons. unfold child_or_new.
    rewrite Hcu, Hcu'. now eexists.
Qed.

(** The order of the directories is the order of the input, not the
    alphabet: the same two paths in both orders. *)
Example directories_in_input_order :
  tree_text "" ["b/x"; "a/y"]
  = Ok (join newline ["b/"; "    └── x"; "a/"; "    └── y"])
  /\ tree_text "" ["a/y"; "b/x"]
     = Ok (join newline ["a/"; "    └── y"; "b/"; "    └── x"]).
Proof. split; vm_compute; reflexivity. Qed.

(** ** Prefixes, suffixes and splitting on a longer separator *)

Lemma append_assoc (a b c : string) :
  ((a ++ b) ++ c = a ++ (b ++ c))%string.
Proof. induction a as [|x a IH]; simpl; [reflexivity | now rewrite IH]. Qed.

Lemma append_nil_r (a : string) : (a ++ "")%string = a.
Proof. induction a as [|x a IH]; simpl; [reflexivity | now rewrite IH]. Qed.

Lemma startswith_append p t : startswith (p ++ t) p = true.
Proof.
  induction p as [|a p IH]; simpl; [reflexivity|].
  now rewrite Ascii.eqb_refl, IH.
Qed.

Lemma startswith_inv p :
  forall s, startswith s p = true -> exists t, s = (p ++ t)%string.
Proof.
  induction p as [|a p IH]; intros s H; simpl in H.
  - now exists s.
  - destruct s as [|b s]; [discriminate|].
    apply andb_true_iff in H as [Hab Hs].
    apply Ascii.eqb_eq in Hab. subst b.
    destruct (IH _ Hs) as [t ->]. now exists t.
Qed.

Lemma drop_append p t : drop (String.length p) (p ++ t) = t.
Proof. induction p as [|a p IH]; simpl; [now destruct t | exact IH]. Qed.

Lemma endswith_char_cons a s c :
  s <> EmptyString -> endswith_char (String a s) c = endswith_char s c.
Proof. destruct s; [congruence | reflexivity]. Qed.

Lemma endswith_char_append a b c :
  b <> EmptyString -> endswith_char (a ++ b) c = endswith_char b c.
Proof.
  intros Hb. induction a as [|x a IH]; simpl append; [reflexivity|].
  rewrite endswith_char_cons; [exact IH|].
  destruct a; simpl; [exact Hb | discriminate].
Qed.

Lemma endswith_char_append_nil a c :
  endswith_char (a ++ String c "") c = true.
Proof.
  rewrite endswith_char_append by discriminate. simpl.
  apply Ascii.eqb_refl.
Qed.

Lemma startswith_contains sep s : startswith s sep = true -> contains sep s = true.
Proof. intros H. destruct s; simpl; rewrite H; reflexivity. Qed.

Lemma contains_cons sep c s :
  contains sep (String c s) = startswith (String c s) sep || contains sep s.
Proof. reflexivity. Qed.

Lemma py_split_aux_not_nil sep s : forall k, py_split_aux sep k s <> [].
Proof.
  induction s as [|c s IH]; intros k; simpl; [discriminate|].
  destruct k as [|k]; [|apply IH].
  destruct (startswith (String c s) sep); [discriminate|].
  destruct (py_split_aux sep 0 s); discriminate.
Qed.

Lemma py_split_aux_skip sep x b :
  py_split_aux sep (String.length x) (x ++ b) = py_split_aux sep 0 b.
Proof. induction x as [|a x IH]; simpl; [reflexivity | exact IH]. Qed.

(** Without an occurrence of the separator the split is the string. *)
Lemma py_split_none sep s : contains sep s = false -> py_split sep s = [s].
Proof.
  unfold py_split. induction s as [|c s IH]; intros H; [reflexivity|].
  rewrite contains_cons in H. apply orb_false_iff in H as [Hs Hc].
  cbn [py_split_aux]. rewrite Hs, (IH Hc). reflexivity.
Qed.

(** An occurrence at the start gives an empty first element. *)
Lemma py_split_here sep b :
  sep <> EmptyString ->
  py_split sep (sep ++ b) = EmptyString :: py_split sep b.
Proof.
  unfold py_split. destruct sep as [|a sep]; [congruence|]. intros _.
  change (String a sep ++ b)%string with (String a (sep ++ b)).
  cbn [py_split_aux].
  change (String a (sep ++ b)) with (String a sep ++ b)%string.
  rewrite startswith_append.
  replace (String.length (String a sep) - 1) with (String.length sep)
    by (simpl; lia).
  rewrite py_split_aux_skip. reflexivity.
Qed.

Lemma startswith_append_more x y sep :
  startswith x sep = true -> startswith (x ++ y) sep = true.
Proof.
  intros H. destruct (startswith_inv _ _ H) as [t ->].
  rewrite append_assoc. apply startswith_append.
Qed.

(** The first element is what stands before the first occurrence. *)
Lemma py_split_first sep s :
  sep <> EmptyString -> contains sep s = true ->
  exists a b,
    s = (a ++ sep ++ b)%string
    /\ py_split sep s = a :: py_split sep b
    /\ contains sep a = false.
Proof.
  intros Hsep. induction s as [|c s IH]; intros H.
  - simpl in H. rewrite orb_false_r in H.
    destruct sep; [congruence | discriminate].
  - destruct (startswith (String c s) sep) eqn:Hs.
    + destruct (startswith_inv _ _ Hs) as [b Hb].
      exists EmptyString, b. split; [exact Hb|]. split.
      * rewrite Hb. now apply py_split_here.
      * simpl. rewrite orb_false_r. destruct sep; [congruence | reflexivity].
    + rewrite contains_cons, Hs in H. simpl in H.
      destruct (IH H) as (a & b & -> & Hsplit & Ha).
      exists (String c a), b. split; [reflexivity|]. split.
      * unfold py_split in *. cbn [py_split_aux]. rewrite Hs, Hsplit.
        reflexivity.
      * rewrite contains_cons, Ha, orb_false_r.
        destruct (startswith (String c a) sep) eqn:Hca; [|reflexivity].
        change (String c (a ++ sep ++ b)) with (String c a ++ sep ++ b)%string
          in Hs.
        now rewrite (startswith_append_more _ _ _ Hca) in Hs.
Qed.

Lemma templates_prefix_not_empty role_name :
  (role_name ++ "/templates/")%string <> EmptyString.
Proof. destruct role_name; discriminate. Qed.

(** ** Segments *)

Lemma split_segments_slash_free s :
  Forall (fun x => slash_free x = true) (split slash s).
Proof.
  induction s as [|c s IH]; simpl.
  - now constructor.
  - destruct (Ascii.eqb c slash) eqn:E.
    + now constructor.
    + destruct (split slash s) as [|hd tl] eqn:Es;
        [now apply split_not_nil in Es|].
      inversion IH; subst. constructor; [|assumption].
      simpl. now rewrite E.
Qed.

Lemma last_split_not_empty s :
  s <> EmptyString -> endswith_char s slash = false ->
  last (split slash s) EmptyString <> EmptyString.
Proof.
  induction s as [|c s IH]; intros Hne Hend; [congruence|].
  destruct s as [|c2 s].
  - simpl in Hend. simpl. rewrite Hend. discriminate.
  - rewrite endswith_char_cons in Hend by discriminate.
    specialize (IH ltac:(discriminate) Hend).
    change (split slash (String c (String c2 s)))
      with (if Ascii.eqb c slash then EmptyString :: split slash (String c2 s)
            else match split slash (String c2 s) with
                 | [] => [String c EmptyString]
                 | hd :: tl => String c hd :: tl
                 end).
    destruct (split slash (String c2 s)) as [|hd tl] eqn:E;
      [now apply split_not_nil in E|].
    destruct (Ascii.eqb c slash); [exact IH|].
    destruct tl as [|x tl]; [discriminate | exact IH].
Qed.

Lemma parts_of_role_prefix role_name p :
  slash_free role_name = true ->
  parts_of role_name (role_name ++ "/" ++ p) = split slash p.
Proof.
  intros Hfree. unfold parts_of.
  change ("/" ++ p)%string with (String slash p).
  rewrite split_app_slash by exact Hfree. unfold strip_role_name.
  destruct (split slash p) eqn:E; [now apply split_not_nil in E|].
  now rewrite String.eqb_refl.
Qed.

Lemma path_dirs_cons a l :
  l <> [] -> nonempty a = true -> path_dirs (a :: l) = a :: path_dirs l.
Proof.
  intros Hl Ha. destruct l as [|b l]; [congruence|].
  now rewrite path_dirs_cons2, Ha.
Qed.

Lemma path_file_cons a l : l <> [] -> path_file (a :: l) = path_file l.
Proof. intros Hl. destruct l as [|b l]; [congruence | reflexivity]. Qed.

(** ** The helpers of the two scripts *)

Lemma templates_prefix_assoc role_name t :
  ((role_name ++ "/templates/") ++ t
   = role_name ++ "/templates/" ++ t)%string.
Proof. apply append_assoc. Qed.

Lemma endswith_templates_prefix role_name :
  endswith_char (role_name ++ "/templates/") slash = true.
Proof.
  change "/templates/" with ("/templates" ++ String slash "")%string.
  rewrite <- append_assoc. apply endswith_char_append_nil.
Qed.

(** What the zip script takes for a template: the rest of a listed name
    that starts with the prefix and does not end with the separator. *)
Lemma zip_templates_in role_name file_list t :
  In t (ZipScript._find_templates role_name file_list)
  <-> In (role_name ++ "/templates/" ++ t)%string file_list
      /\ t <> EmptyString
      /\ endswith_char t slash = false.
Proof.
  unfold ZipScript._find_templates. rewrite in_flat_map. split.
  - intros (f & Hin & Ht).
    destruct (startswith f (role_name ++ "/templates/")) eqn:Hs;
      [|destruct Ht].
    destruct (endswith_char f slash) eqn:He; [destruct Ht|].
    destruct Ht as [<-|[]].
    apply startswith_inv in Hs as [t ->]. rewrite drop_append.
    assert (t <> EmptyString) as Hne.
    { intros ->. rewrite append_nil_r, endswith_templates_prefix in He.
      discriminate. }
    rewrite <- templates_prefix_assoc.
    split; [exact Hin|]. split; [exact Hne|].
    now rewrite endswith_char_append in He.
  - intros (Hin & Hne & He).
    exists (role_name ++ "/templates/" ++ t)%string. split; [exact Hin|].
    rewrite <- templates_prefix_assoc, startswith_append.
    rewrite endswith_char_append by exact Hne. rewrite He.
    cbn [andb negb]. rewrite drop_append. now left.
Qed.

Lemma dir_templates_step templates_prefix filename tl :
  templates_prefix <> EmptyString ->
  contains templates_prefix filename = true ->
  exists a t rest,
    filename = (a ++ templates_prefix ++ t ++ rest)%string
    /\ contains templates_prefix a = false
    /\ contains templates_prefix t = false
    /\ (rest = EmptyString \/ startswith rest templates_prefix = true)
    /\ DirScript.find_templates_loop templates_prefix (filename :: tl)
       = option_map (cons t)
           (DirScript.find_templates_loop templates_prefix tl).
Proof.
  intros Hsep Hc. cbn [DirScript.find_templates_loop]. rewrite Hc.
  destruct (@py_split_first _ _ Hsep Hc) as (a & b & -> & -> & Ha).
  destruct (contains templates_prefix b) eqn:Hb.
  - destruct (@py_split_first _ _ Hsep Hb) as (t & b2 & -> & -> & Ht).
    exists a, t, (templates_prefix ++ b2)%string.
    repeat split; auto. right. apply startswith_append.
  - rewrite (@py_split_none _ _ Hb).
    exists a, b, EmptyString. rewrite append_nil_r. repeat split; auto.
Qed.

Lemma find_append {A : Type} (p : A -> bool) (l l' : list A) :
  find p (l ++ l')
  = match find p l with Some x => Some x | None => find p l' end.
Proof.
  induction l as [|x l IH]; simpl; [reflexivity|].
  destruct (p x); [reflexivity | exact IH].
Qed.

(** A dict set key by key in a loop holds, for each key, what the last
    selected element with that key put there. *)
Lemma fold_assoc_get {V : Type} (sel : string -> bool)
  (key : string -> string) (rd : string -> V) (l : list string) :
  forall acc k,
    assoc_get k
      (fold_left
         (fun d f => if sel f then assoc_set (key f) (rd f) d else d) l acc)
    = match find (fun f => sel f && String.eqb (key f) k) (rev l) with
      | Some f => Some (rd f)
      | None => assoc_get k acc
      end.
Proof.
  assert (Hset : forall k k' (v : V) d,
             assoc_get k (assoc_set k' v d)
             = if String.eqb k' k then Some v else assoc_get k d).
  { intros k k' v d. induction d as [|[k0 v0] tl IH]; simpl.
    - now rewrite (String.eqb_sym k k').
    - destruct (String.eqb k' k0) eqn:E0; simpl.
      + apply String.eqb_eq in E0. subst k0.
        rewrite (String.eqb_sym k k'). now destruct (String.eqb k' k).
      + destruct (String.eqb k k0) eqn:E1; [|exact IH].
        apply String.eqb_eq in E1. subst k0. now rewrite E0. }
  induction l as [|x l IH]; intros acc k; [reflexivity|].
  cbn [fold_left rev]. rewrite IH, find_append.
  destruct (find _ (rev l)); [reflexivity|].
  cbn [find]. destruct (sel x); cbn [andb]; [|reflexivity].
  rewrite Hset. now destruct (String.eqb (key x) k).
Qed.

Lemma flat_map_map_ext {A B C : Type} (f : B -> list C) (g : A -> B)
  (h : A -> list C) (l : list A) :
  (forall a, f (g a) = h a) -> flat_map f (map g l) = flat_map h l.
Proof.
  intros H. induction l as [|a l IH]; simpl; [reflexivity|].
  now rewrite H, IH.
Qed.

Lemma fold_left_map_ext {A B S : Type} (f : S -> B -> S) (g : A -> B)
  (h : S -> A -> S) (l : list A) :
  (forall s a, f s (g a) = h s a) ->
  forall s, fold_left f (map g l) s = fold_left h l s.
Proof.
  intros H. induction l as [|a l IH]; intros s; simpl; [reflexivity|].
  now rewrite H, IH.
Qed.

Lemma split_role_prefix role_name q :
  slash_free role_name = true ->
  split slash (role_name ++ "/" ++ q) = role_name :: split slash q.
Proof.
  intros Hfree. change ("/" ++ q)%string with (String slash q).
  now apply split_app_slash.
Qed.

(** ** Which exceptions the builder can raise *)

Lemma insert_entry_raises ds fo :
  forall t e,
    insert_entry ds fo t = Raise e -> e = AttributeError \/ e = TypeError.
Proof.
  induction ds as [|k rest IH]; intros [d|l] e H.
  - destruct fo as [f|]; [|discriminate]. cbn [insert_entry] in H.
    rewrite add_file_dict in H.
    destruct (Dict.get FILES d) as [[d0|l]|]; try discriminate.
    injection H as <-. now left.
  - destruct fo as [f|]; [|discriminate]. cbn [insert_entry] in H.
    rewrite add_file_list in H. injection H as <-. now right.
  - rewrite insert_entry_dict_cons in H.
    destruct (insert_entry rest fo (child_or_new k d)) as [c|e0] eqn:E;
      [discriminate|].
    injection H as <-. now apply IH with (child_or_new k d).
  - rewrite insert_entry_list_cons in H. injection H as <-. now right.
Qed.

Lemma add_paths_raises role_name ps :
  forall t e,
    add_paths role_name t ps = Raise e -> e = AttributeError \/ e = TypeError.
Proof.
  induction ps as [|p ps IH]; intros t e H; cbn [add_paths] in H;
    [discriminate|].
  destruct (add_path role_name t p) as [t1|e1] eqn:E; cbn [bind] in H.
  - now apply IH with t1.
  - injection H as <-. rewrite add_path_insert_entry in E.
    now apply insert_entry_raises in E.
Qed.

(** Entering directories a second time changes nothing. *)
Lemma insert_dirs_idempotent ds :
  forall t t',
    insert_entry ds None t = Ok t' -> insert_entry ds None t' = Ok t'.
Proof.
  induction ds as [|k rest IH]; intros t t' H.
  - reflexivity.
  - destruct t as [d|l];
      [rewrite insert_entry_dict_cons in H
      | rewrite insert_entry_list_cons in H; discriminate].
    inv_bind H. injection H as <-. rename x into child'.
    rewrite insert_entry_dict_cons. unfold child_or_new at 1.
    rewrite get_set_same, (IH _ _ Hx). cbn [bind].
    now rewrite set_set.
Qed.

(** ** The text as a sequence of lines *)

Lemma join_cons sep a l :
  l <> [] -> join sep (a :: l) = (a ++ sep ++ join sep l)%string.
Proof. destruct l; [congruence | reflexivity]. Qed.

Lemma join_app sep l1 l2 :
  l1 <> [] -> l2 <> [] ->
  join sep (l1 ++ l2) = (join sep l1 ++ sep ++ join sep l2)%string.
Proof.
  induction l1 as [|a l1 IH]; [congruence|]. intros _ H2.
  destruct l1 as [|b l1].
  - cbn [app]. now rewrite join_cons.
  - change ((a :: b :: l1) ++ l2) with (a :: ((b :: l1) ++ l2)).
    rewrite join_cons by discriminate.
    rewrite (IH ltac:(discriminate) H2).
    rewrite (@join_cons sep a (b :: l1)) by discriminate.
    now rewrite !append_assoc.
Qed.

(** Joining joined groups is joining their lines, as long as no group is
    empty. *)
Lemma join_groups sep (G : list (list string)) (F : list string) :
  Forall (fun g => g <> []) G ->
  join sep (map (join sep) G ++ F) = join sep (List.concat G ++ F).
Proof.
  induction 1 as [|g G' Hg HG' IH]; [reflexivity|].
  cbn [map List.concat app]. rewrite <- app_assoc.
  destruct (List.concat G' ++ F) as [|x R'] eqn:ER'.
  - assert (map (join sep) G' ++ F = []) as ->.
    { destruct G' as [|g' G'']; [exact ER'|].
      inversion HG'; subst. cbn [List.concat] in ER'.
      destruct g'; [congruence | discriminate]. }
    now rewrite app_nil_r.
  - assert (map (join sep) G' ++ F <> []) as HR.
    { destruct G' as [|g' G'']; [cbn [map List.concat app] in *; congruence|].
      discriminate. }
    rewrite join_cons by exact HR.
    rewrite (@join_app sep g (x :: R') Hg ltac:(discriminate)).
    now rewrite IH.
Qed.

Lemma render_items_remove R total prefix indent items :
  forall i,
    render_items R total prefix indent i items
    = render_items R total prefix indent i (Dict.remove FILES items).
Proof.
  induction items as [|[k v] tl IH]; intros i; [reflexivity|].
  cbn [Dict.remove render_items].
  destruct (String.eqb FILES k) eqn:E; [apply IH|].
  cbn [render_items]. rewrite E. cbv zeta. now rewrite IH.
Qed.

Lemma render_level_falsy v prefix indent :
  truthy v = false -> render_level v prefix indent = [].
Proof. destruct v as [[|? ?]|[|? ?]]; try discriminate; reflexivity. Qed.

(** The lines the loop over the items collects, subtree texts among them,
    are groups of the lines of [render_items]. *)
Lemma item_groups prefix indent total items :
  Forall (fun kv => fst kv <> FILES) items ->
  Forall (fun kv =>
            truthy (snd kv) = true ->
            forall p l ind,
              (exists t',
                  _format_structure (snd kv) p l ind
                  = Ok (join newline (render_level (snd kv) p ind), t'))
              /\ render_level (snd kv) p ind <> [])
    items ->
  forall i subs,
    Forall2 (child_block prefix indent total) (enumerate i items) subs ->
    exists G,
      Forall (fun g => g <> []) G
      /\ List.concat
           (map (fun e =>
                   entry_line prefix indent (S (fst e) =? total)%nat
                     (fst (snd e) ++ "/")%string
                     :: snd (snd e))
              (enumerate i (combine (map fst items) subs)))
         = map (join newline) G
      /\ List.concat G
         = render_items render_level total prefix indent i items.
Proof.
  intros Hkeys. induction Hkeys as [|[k v] tl Hk _ IH];
    intros Hch i subs Hsubs.
  - exists []. cbn [enumerate] in Hsubs. inversion Hsubs; subst.
    repeat split. constructor.
  - apply Forall_cons_iff in Hch as [Hv Htl].
    cbn [enumerate] in Hsubs.
    inversion Hsubs as [|? sub ? subs' Hblock Hrest]; subst.
    destruct (IH Htl _ _ Hrest) as (G & HG & Hcode & Hflat).
    cbn [fst snd] in Hk, Hv.
    assert (String.eqb FILES k = false) as Ek
      by (apply String.eqb_neq; congruence).
    unfold child_block in Hblock. cbn [fst snd] in Hblock.
    cbn [map combine enumerate List.concat fst snd render_items].
    rewrite Ek. cbv zeta. rewrite Hcode, <- Hflat.
    destruct (truthy v) eqn:Tv.
    + destruct Hblock as (text & v' & Hcall & ->).
      destruct (Hv eq_refl (prefix ++ "/" ++ k)%string
                  (S i =? total)%nat
                  (child_indent prefix indent (S i =? total)%nat))
        as [[t' Hlines] Hne].
      rewrite Hlines in Hcall. injection Hcall as <- _.
      exists ([entry_line prefix indent (S i =? total)%nat (k ++ "/")%string]
                :: render_level v (prefix ++ "/" ++ k)%string
                     (child_indent prefix indent (S i =? total)%nat)
                :: G).
      split; [repeat constructor; [discriminate | exact Hne | exact HG]|].
      split; reflexivity.
    + subst sub. rewrite (render_level_falsy _ _ _ Tv).
      exists ([entry_line prefix indent (S i =? total)%nat (k ++ "/")%string]
                :: G).
      split; [constructor; [discriminate | exact HG]|].
      split; reflexivity.
Qed.

Lemma tidy_built : forall t, tidy t -> built t.
Proof.
  induction t as [d IH|l] using value_ind; intros Ht; [|constructor].
  inversion Ht as [? Hall]; subst. constructor. intros k v Hin.
  destruct (Hall k v Hin) as [Hfiles Hother].
  rewrite Forall_forall in IH.
  destruct (String.eqb_spec k FILES) as [->|Hk].
  - destruct (Hfiles eq_refl) as (l & -> & _).
    split; [constructor | congruence].
  - specialize (Hother Hk). split; [now apply (IH (k, v))|].
    intros _. now inversion Hother.
Qed.

(** The text of a tidy structure is its lines joined, and a structure that
    is not empty has a line. *)
Lemma format_structure_lines :
  forall t, tidy t ->
  forall prefix is_last indent,
    (exists t',
        _format_structure t prefix is_last indent
        = Ok (join newline (render_level t prefix indent), t'))
    /\ (truthy t = true -> render_level t prefix indent <> []).
Proof.
  induction t as [d IH|l] using value_ind; intros Ht prefix is_last indent;
    [|inversion Ht].
  pose proof (tidy_built Ht) as Hb.
  inversion Ht as [? Hall]; subst.
  rewrite Forall_forall in IH. split.
  - destruct (level_layout_built prefix is_last indent Hb)
      as (subs & t' & Hsubs & Heq & _ & _).
    exists t'. rewrite Heq. f_equal. f_equal.
    destruct (@item_groups prefix indent
                (List.length (Dict.remove FILES d)
                 + List.length (sorted (py_iter (popped_files d))))
                (Dict.remove FILES d))
      with (i := 0) (subs := subs) as (G & HG & Hcode & Hflat).
    + apply remove_no_files.
    + pose proof (remove_no_files d) as Hkeys.
      rewrite Forall_forall in Hkeys |- *. intros [k v] Hin Tv p l ind.
      specialize (Hkeys _ Hin). apply in_remove in Hin.
      destruct (Hall k v Hin) as [_ Hother].
      destruct (IH (k, v) Hin (Hother Hkeys) p l ind) as [Hrun Hne].
      split; [exact Hrun | now apply Hne].
    + exact Hsubs.
    + unfold spec_level_lines.
      assert (Hlen : List.length (combine (Dict.keys (Dict.remove FILES d)) subs)
                     = List.length (Dict.remove FILES d)).
      { apply Forall2_length_eq in Hsubs.
        rewrite enumerate_length in Hsubs.
        unfold Dict.keys. rewrite length_combine, length_map. lia. }
      rewrite Hlen. unfold Dict.keys. rewrite Hcode.
      rewrite join_groups by exact HG. rewrite Hflat.
      cbn [render_level]. now rewrite <- render_items_remove.
  - intros Htruthy. cbn [render_level].
    destruct d as [|[k v] tl]; [discriminate Htruthy|]. clear Htruthy.
    destruct (String.eqb FILES k) eqn:E.
    + apply String.eqb_eq in E. subst k.
      destruct (Hall FILES v (or_introl eq_refl)) as [Hfiles _].
      destruct (Hfiles eq_refl) as (l & -> & Hl).
      assert (popped_files ((FILES, VList l) :: tl) = VList l) as ->
        by (unfold popped_files; cbn [Dict.get];
            now rewrite String.eqb_refl).
      cbn [py_iter].
      destruct (sorted l) as [|x names] eqn:Es.
      * apply (f_equal (@List.length string)) in Es.
        rewrite sorted_length in Es. destruct l; [congruence | discriminate].
      * cbn [enumerate map]. intros Habs.
        apply app_eq_nil in Habs as [_ Habs]. discriminate.
    + cbn [render_items]. rewrite E. discriminate.
Qed.

Lemma count_items_length R total prefix indent items :
  Forall (fun kv => forall p ind,
              List.length (R (snd kv) p ind) = entries (snd kv)) items ->
  forall i,
    List.length (render_items R total prefix indent i items)
    = count_items entries items.
Proof.
  induction 1 as [|[k v] tl Hv _ IH]; intros i; [reflexivity|].
  cbn [render_items count_items]. destruct (String.eqb FILES k); [apply IH|].
  cbn [List.length]. rewrite length_app, Hv, IH. reflexivity.
Qed.

(** One line for each directory and each file entry. *)
Lemma render_level_length :
  forall t prefix indent,
    List.length (render_level t prefix indent) = entries t.
Proof.
  induction t as [d IH|l] using value_ind; intros prefix indent;
    [|reflexivity].
  cbn [render_level entries].
  rewrite length_app, length_map, enumerate_length, sorted_length.
  rewrite <- py_len_iter. f_equal.
  apply count_items_length.
  rewrite Forall_forall in IH |- *. intros kv Hin p ind. now apply IH.
Qed.

(** The builder keeps structures tidy. *)

Lemma tidy_empty : tidy (VDict []).
Proof. constructor. intros k v []. Qed.

Lemma tidy_set k v d :
  tidy (VDict d) ->
  (k = FILES -> exists l, v = VList l /\ l <> []) ->
  (k <> FILES -> tidy v) ->
  tidy (VDict (Dict.set k v d)).
Proof.
  intros Hd Hf Ho. inversion Hd as [? Hall]; subst. constructor.
  intros k0 v0 Hin. apply in_set in Hin as [[= -> ->]|Hin]; auto.
Qed.

Lemma insert_entry_tidy ds fo :
  ~ In FILES ds ->
  forall t t', tidy t -> insert_entry ds fo t = Ok t' -> tidy t'.
Proof.
  induction ds as [|k rest IH]; intros Hfree t t' Ht H.
  - destruct fo as [f|]; [|now injection H as <-].
    cbn [insert_entry] in H. inversion Ht as [d Hall]; subst.
    rewrite add_file_dict in H.
    destruct (Dict.get FILES d) as [[d0|l]|]; try discriminate;
      injection H as <-;
      (apply tidy_set; [exact Ht | intros _ | congruence]).
    + exists (l ++ [f]). split; [reflexivity|]. now destruct l.
    + exists [f]. split; [reflexivity | discriminate].
  - assert (Hk : k <> FILES) by (intros ->; apply Hfree; now left).
    inversion Ht as [d Hall]; subst.
    rewrite insert_entry_dict_cons in H. inv_bind H. injection H as <-.
    apply tidy_set; [exact Ht | congruence | intros _].
    apply IH with (child_or_new k d); [| |exact Hx].
    + intros Hin. apply Hfree. now right.
    + unfold child_or_new. destruct (Dict.get k d) as [c|] eqn:E.
      * now apply (Hall k c (get_in _ _ E)).
      * apply tidy_empty.
Qed.

Lemma add_paths_tidy role_name ps :
  Forall marker_free ps ->
  forall t t', tidy t -> add_paths role_name t ps = Ok t' -> tidy t'.
Proof.
  induction 1 as [|p ps Hp _ IH]; intros t t' Ht H; cbn [add_paths] in H.
  - now injection H as <-.
  - inv_bind H. rewrite add_path_insert_entry in Hx.
    apply IH with x; [|exact H].
    apply insert_entry_tidy in Hx; [exact Hx | | exact Ht].
    intros Hin. apply Hp. now apply path_dirs_strip in Hin.
Qed.

(** ** Nodes of a structure without a marker directory *)

Lemma analyze_tidy role_name file_list t :
  Forall marker_free file_list ->
  _analyze_structure role_name file_list = Ok t -> tidy t.
Proof.
  intros Hfree H. exact (add_paths_tidy role_name Hfree tidy_empty H).
Qed.

Lemma dir_at_tidy pos :
  forall t d, tidy t -> dir_at t pos = Some (VDict d) -> tidy (VDict d).
Proof.
  induction pos as [|k pos IH]; intros t d Ht H.
  - cbn [dir_at] in H. injection H as ->. exact Ht.
  - destruct Ht as [d0 Hd0]. cbn [dir_at] in H.
    destruct (Dict.get k d0) as [c|] eqn:E; [|discriminate].
    apply get_in in E. destruct (Hd0 _ _ E) as [Hf Hn].
    destruct (String.eqb k FILES) eqn:Ek.
    + apply String.eqb_eq in Ek. destruct (Hf Ek) as (l & -> & _).
      destruct pos; cbn [dir_at] in H; discriminate.
    + apply String.eqb_neq in Ek. apply IH with c; auto.
Qed.

Lemma tidy_popped_files d :
  tidy (VDict d) -> popped_files d = VList (files_at (VDict d) []).
Proof.
  intros Ht. inversion Ht as [d' H Hd']. subst d'.
  unfold popped_files, files_at. cbn [dir_at].
  destruct (Dict.get FILES d) as [v|] eqn:E; [|reflexivity].
  apply get_in in E. destruct (H _ _ E) as [Hf _].
  destruct (Hf eq_refl) as (l & -> & _). reflexivity.
Qed.

Lemma files_at_node t pos d :
  dir_at t pos = Some (VDict d) -> files_at t pos = files_at (VDict d) [].
Proof. intros H. unfold files_at. rewrite H. reflexivity. Qed.

Lemma tidy_children_dicts d k v :
  tidy (VDict d) -> In (k, v) (Dict.remove FILES d) -> is_dict v = true.
Proof.
  intros Ht Hin. inversion Ht as [d' H Hd']. subst d'.
  assert (k <> FILES) as Hk.
  { intros ->. apply (in_map fst) in Hin. change (map fst) with Dict.keys in Hin.
    rewrite keys_remove in Hin. apply filter_In in Hin as [_ Hne].
    now rewrite String.eqb_refl in Hne. }
  apply in_remove in Hin. destruct (H _ _ Hin) as [_ Hn].
  destruct (Hn Hk). reflexivity.
Qed.

Lemma dir_at_snoc pos :
  forall t k,
    dir_at t (pos ++ [k])
    = match dir_at t pos with
      | Some (VDict d) => Dict.get k d
      | _ => None
      end.
Proof.
  induction pos as [|p pos IH]; intros t k; cbn [app dir_at].
  - destruct t as [d|l]; [|reflexivity].
    destruct (Dict.get k d); reflexivity.
  - destruct t as [d|l]; [|reflexivity].
    destruct (Dict.get p d); [apply IH | reflexivity].
Qed.

Lemma subdir_is_dir t pre k :
  tidy t -> In k (subdirs_at t pre) -> has_dir t (pre ++ [k]).
Proof.
  intros Ht Hin. unfold subdirs_at in Hin.
  destruct (dir_at t pre) as [[d|l]|] eqn:E; try contradiction.
  rewrite keys_remove in Hin. apply filter_In in Hin as [Hin Hne].
  assert (k <> FILES) as Hk.
  { intros ->. now rewrite String.eqb_refl in Hne. }
  assert (existsb (String.eqb k) (Dict.keys d) = true) as Hex.
  { apply existsb_exists. exists k. split; [exact Hin|].
    apply String.eqb_refl. }
  rewrite existsb_keys in Hex.
  destruct (Dict.get k d) as [v|] eqn:Eg; [|discriminate].
  pose proof (@dir_at_tidy pre _ _ Ht E) as Hd.
  inversion Hd as [d' H Hd']. subst d'.
  destruct (H _ _ (get_in _ _ Eg)) as [_ Hn].
  destruct (Hn Hk) as [dk _].
  exists dk. rewrite dir_at_snoc, E. exact Eg.
Qed.

Lemma count_files_for role_name pos f file_list :
  count_occ string_dec (files_for role_name pos file_list) f
  = times_listed role_name pos f file_list.
Proof.
  unfold files_for, times_listed.
  induction file_list as [|p tl IH]; [reflexivity|].
  cbn [flat_map filter]. rewrite count_occ_app, IH.
  unfold file_here, ends_at.
  destruct (pos_eqb pos (path_dirs (parts_of role_name p)));
    cbn [andb]; [|reflexivity].
  destruct (path_file (parts_of role_name p)) as [g|];
    cbn [opt_list]; [|reflexivity].
  cbn [count_occ]. destruct (string_dec g f) as [->|Hne].
  - rewrite String.eqb_refl. reflexivity.
  - apply String.eqb_neq in Hne. rewrite Hne. reflexivity.
Qed.

(** The lines of a node whose marker holds the list of its files. *)
Lemma render_level_node d prefix indent :
  render_level (VDict d) prefix indent
  = render_items render_level
      (List.length (Dict.remove FILES d)
       + List.length (sorted (py_iter (popped_files d))))
      prefix indent 0 d
    ++ map (fun e =>
              entry_line prefix indent
                (S (fst e)
                 =? List.length (Dict.remove FILES d)
                    + List.length (sorted (py_iter (popped_files d))))%nat
                (snd e))
         (enumerate (List.length (Dict.remove FILES d))
            (sorted (py_iter (popped_files d)))).
Proof. reflexivity. Qed.

(** ** The first occurrence of a separator *)

Lemma starts_nowhere_in_nil sep tail :
  starts_nowhere_in sep EmptyString tail.
Proof.
  intros a1 a2 H Hne. destruct a1 as [|c a1]; [|discriminate].
  simpl in H. congruence.
Qed.

Lemma starts_nowhere_in_cons sep c a tail :
  startswith (String c a ++ tail) sep = false ->
  starts_nowhere_in sep a tail ->
  starts_nowhere_in sep (String c a) tail.
Proof.
  intros Hs Hn a1 a2 H Hne. destruct a1 as [|c1 a1].
  - simpl in H. subst a2. exact Hs.
  - simpl in H. injection H as _ H. now apply Hn with a1.
Qed.

Lemma contains_append_false sep t1 :
  forall t2, contains sep (t1 ++ t2) = false -> contains sep t2 = false.
Proof.
  induction t1 as [|c t1 IH]; intros t2 H; [exact H|].
  change (String c t1 ++ t2)%string with (String c (t1 ++ t2)) in H.
  rewrite contains_cons in H. apply orb_false_iff in H as [_ H].
  now apply IH.
Qed.

Lemma contains_false_startswith sep s :
  contains sep s = false -> startswith s sep = false.
Proof.
  intros H. destruct s as [|c s].
  - simpl in H. now apply orb_false_iff in H as [H _].
  - rewrite contains_cons in H. now apply orb_false_iff in H as [H _].
Qed.

Lemma contains_false_starts_nowhere sep b :
  contains sep b = false -> starts_nowhere_in sep b EmptyString.
Proof.
  intros H a1 a2 -> _. rewrite append_nil_r.
  apply contains_false_startswith. now apply contains_append_false with a1.
Qed.

Lemma py_split_first_exact sep s :
  sep <> EmptyString -> contains sep s = true ->
  exists a b,
    s = (a ++ sep ++ b)%string
    /\ py_split sep s = a :: py_split sep b
    /\ starts_nowhere_in sep a (sep ++ b).
Proof.
  intros Hsep. induction s as [|c s IH]; intros H.
  - simpl in H. rewrite orb_false_r in H.
    destruct sep; [congruence | discriminate].
  - destruct (startswith (String c s) sep) eqn:Hs.
    + destruct (startswith_inv _ _ Hs) as [b Hb].
      exists EmptyString, b. split; [exact Hb|]. split.
      * rewrite Hb. now apply py_split_here.
      * apply starts_nowhere_in_nil.
    + rewrite contains_cons, Hs in H. simpl in H.
      destruct (IH H) as (a & b & -> & Hsplit & Ha).
      exists (String c a), b. split; [reflexivity|]. split.
      * unfold py_split in *. cbn [py_split_aux]. rewrite Hs, Hsplit.
        reflexivity.
      * apply starts_nowhere_in_cons; [exact Hs | exact Ha].
Qed.

Lemma dir_templates_step_exact templates_prefix filename tl :
  templates_prefix <> EmptyString ->
  contains templates_prefix filename = true ->
  exists t,
    between_first_two templates_prefix filename t
    /\ DirScript.find_templates_loop templates_prefix (filename :: tl)
       = option_map (cons t)
           (DirScript.find_templates_loop templates_prefix tl).
Proof.
  intros Hsep Hc. cbn [DirScript.find_templates_loop]. rewrite Hc.
  destruct (@py_split_first_exact _ _ Hsep Hc) as (a & b & -> & -> & Ha).
  destruct (contains templates_prefix b) eqn:Hb.
  - destruct (@py_split_first_exact _ _ Hsep Hb) as (t & b2 & -> & -> & Ht).
    exists t. split; [|reflexivity].
    exists a, (templates_prefix ++ b2)%string.
    repeat split; auto. right. apply startswith_append.
  - rewrite (@py_split_none _ _ Hb).
    exists b. split; [|reflexivity].
    exists a, EmptyString. rewrite append_nil_r.
    repeat split; auto. now apply contains_false_starts_nowhere.
Qed.

Lemma append_eq_split a :
  forall x a' x',
    (a ++ x)%string = (a' ++ x')%string ->
    (exists m, a' = (a ++ m)%string /\ x = (m ++ x')%string)
    \/ (exists m, a = (a' ++ m)%string /\ x' = (m ++ x)%string).
Proof.
  induction a as [|c a IH]; intros x a' x' H.
  - left. exists a'. split; [reflexivity | exact H].
  - destruct a' as [|c' a'].
    + right. exists (String c a). split; [reflexivity|]. now symmetry.
    + simpl in H. injection H as -> H.
      destruct (IH _ _ _ H) as [(m & -> & ->)|(m & -> & ->)];
        [left | right]; exists m; split; reflexivity.
Qed.

Lemma append_inv_head p :
  forall x y, (p ++ x)%string = (p ++ y)%string -> x = y.
Proof.
  induction p as [|c p IH]; intros x y H; [exact H|].
  simpl in H. injection H as H. now apply IH.
Qed.

(** The text between the first two occurrences is determined by the
    string. *)
Lemma between_first_two_unique sep s t t' :
  between_first_two sep s t -> between_first_two sep s t' -> t = t'.
Proof.
  intros (a & rest & Hs & Ha & Ht & Hrest)
         (a' & rest' & Hs' & Ha' & Ht' & Hrest').
  rewrite Hs in Hs'.
  assert ((t ++ rest)%string = (t' ++ rest')%string) as Htl.
  { destruct (append_eq_split _ _ _ _ Hs') as [(m & Hm & Hx)|(m & Hm & Hx)].
    - destruct m as [|c m].
      + simpl in Hx. now apply append_inv_head in Hx.
      + exfalso. assert (String c m <> EmptyString) as Hne by discriminate.
        pose proof (Ha' a (String c m) Hm Hne) as Hno.
        rewrite <- Hx, startswith_append in Hno. discriminate.
    - destruct m as [|c m].
      + simpl in Hx. apply append_inv_head in Hx. now symmetry.
      + exfalso. assert (String c m <> EmptyString) as Hne by discriminate.
        pose proof (Ha a' (String c m) Hm Hne) as Hno.
        rewrite <- Hx, startswith_append in Hno. discriminate. }
  destruct (append_eq_split _ _ _ _ Htl) as [(m & Hm & Hx)|(m & Hm & Hx)].
  - destruct m as [|c m]; [now rewrite append_nil_r in Hm|].
    exfalso. assert (String c m <> EmptyString) as Hne by discriminate.
    pose proof (Ht' t (String c m) Hm Hne) as Hno.
    rewrite <- Hx in Hno.
    destruct Hrest as [Hr|Hr]; [rewrite Hr in Hx; discriminate|].
    rewrite Hr in Hno. discriminate.
  - destruct m as [|c m]; [now rewrite append_nil_r in Hm|].
    exfalso. assert (String c m <> EmptyString) as Hne by discriminate.
    pose proof (Ht t' (String c m) Hm Hne) as Hno.
    rewrite <- Hx in Hno.
    destruct Hrest' as [Hr|Hr]; [rewrite Hr in Hx; discriminate|].
    rewrite Hr in Hno. discriminate.
Qed.

(** ** A directory called "__files__"

    What the two functions do when a directory segment is the marker: the
    directory shares its key with the list of files, so it is printed as a
    file line, the files below it are not printed, and a files list that is
    already there takes its place. *)

Lemma marker_directory_printed_as_file :
  _analyze_structure "" ["a/__files__/x"; "a/b/y"]
  = Ok (VDict
          [("a",
            VDict
              [(FILES, VDict [(FILES, VList ["x"])]);
               ("b", VDict [(FILES, VList ["y"])])])])
  /\ tree_text "" ["a/__files__/x"; "a/b/y"]
     = Ok (join newline
             ["a/"; "    ├── b/"; "    │   └── y"; "    └── __files__"]).
Proof. split; vm_compute; reflexivity. Qed.

Lemma marker_directory_hides_files :
  _analyze_structure "" ["__files__/x"; "__files__/x"]
  = Ok (VDict [(FILES, VDict [(FILES, VList ["x"; "x"])])])
  /\ tree_text "" ["__files__/x"; "__files__/x"] = Ok "__files__".
Proof. split; vm_compute; reflexivity. Qed.

Lemma marker_directory_not_made :
  _analyze_structure "" ["y"; "__files__/"]
  = Ok (VDict [(FILES, VList ["y"])])
  /\ subdirs_at (VDict [(FILES, VList ["y"])]) [] = []
  /\ ~ has_dir (VDict [(FILES, VList ["y"])]) [FILES].
Proof.
  split; [vm_compute; reflexivity|]. split; [vm_compute; reflexivity|].
  intros [d H]. vm_compute in H. discriminate.
Qed.

(** * The claims *)

(** C1: the paths a/b/file1.txt, a/c/file2.txt, root.txt with role name ""
    render as the six lines a/, ├── b/, │   └── file1.txt, └── c/,
    └── file2.txt (nested ones indented by blocks of four) and root.txt;
    the first-level entries carry neither glyph nor indent. *)
Theorem C1_round_trip :
  tree_text "" ["a/b/file1.txt"; "a/c/file2.txt"; "root.txt"]
  = Ok (join newline
          [ "a/";
            "    ├── b/";
            "    │   └── file1.txt";
            "    └── c/";
            "        └── file2.txt";
            "root.txt" ]).
Proof. vm_compute. reflexivity. Qed.

(** C2: the builder is not total.  A role that has a directory called
    "__files__" next to a file makes the file branch call [append] on the
    dict stored under the marker, which raises.  (On paths without such a
    directory the builder is total: [analyze_total].) *)
Theorem C2_marker_directory_raises :
  _analyze_structure "myrole" ["myrole/__files__/x"; "myrole/y"]
  = Raise AttributeError.
Proof. vm_compute. reflexivity. Qed.

(** C3, as amended: on every structure the builder makes, the first call of
    the renderer succeeds and leaves the structure stripped of the
    "__files__" entry of every dict it entered, so that no file name is left
    in it; a second call on the same object renders the stripped structure
    and leaves it as it is. *)
Theorem C3_render_strips_markers role_name file_list t :
  _analyze_structure role_name file_list = Ok t ->
  exists text1 text2,
    _format_structure t "" true "" = Ok (text1, strip_files t)
    /\ _format_structure (strip_files t) "" true ""
       = Ok (text2, strip_files t)
    /\ forall pos, files_at (strip_files t) pos = [].
Proof.
  intros H. apply analyze_built in H as [Hb Hd].
  destruct (format_structure_strip Hb Hd "" true "") as [text1 H1].
  destruct (@format_structure_strip (strip_files t)
              (strip_files_built Hb)
              (eq_trans (strip_files_is_dict t) Hd) "" true "")
    as [text2 H2].
  rewrite strip_files_idem in H2.
  exists text1, text2. split; [exact H1|]. split; [exact H2|].
  apply files_at_strip.
Qed.

Lemma C3_render_strips_markers_witness :
  exists text1 text2,
    _format_structure (VDict [(FILES, VList ["root.txt"])]) "" true ""
    = Ok (text1, strip_files (VDict [(FILES, VList ["root.txt"])]))
    /\ _format_structure
         (strip_files (VDict [(FILES, VList ["root.txt"])])) "" true ""
       = Ok (text2, strip_files (VDict [(FILES, VList ["root.txt"])]))
    /\ forall pos,
         files_at (strip_files (VDict [(FILES, VList ["root.txt"])])) pos = [].
Proof.
  apply (@C3_render_strips_markers "" ["root.txt"]). reflexivity.
Defined.

(** Against C3 as stated: the second call on the structure of C1 returns
    the directory lines only. *)
Lemma C3_second_render_differs :
  exists t text1 text2,
    _analyze_structure "" ["a/b/file1.txt"; "a/c/file2.txt"; "root.txt"]
    = Ok t
    /\ render_twice t = Ok (text1, text2)
    /\ text2 = join newline ["a/"; "    ├── b/"; "    └── c/"]
    /\ text1 <> text2.
Proof.
  eexists. eexists. eexists.
  split; [vm_compute; reflexivity|].
  split; [vm_compute; reflexivity|].
  split; [vm_compute; reflexivity|].
  vm_compute. discriminate.
Qed.

(** C4, as amended: in a structure built from a listing in which no
    directory is called "__files__", every node holds the list of its files
    under the marker and its directories under the other keys, a dict below
    each.  The renderer emits the directories first, in the order in which
    the input first mentions them, each followed by its subtree, and then
    the files in ascending order; no directory that a path enters below the
    node is left out.  Below the first level the last of these children
    carries the └── glyph and every earlier one ├──, while the entries of
    the first level are bare. *)
Theorem C4_level_layout_of_built role_name file_list t pos d
  prefix is_last indent :
  Forall marker_free file_list ->
  _analyze_structure role_name file_list = Ok t ->
  dir_at t pos = Some (VDict d) ->
  popped_files d = VList (files_for role_name pos file_list)
  /\ (forall k v, In (k, v) (Dict.remove FILES d) -> is_dict v = true)
  /\ level_layout d prefix is_last indent
  /\ Dict.keys (Dict.remove FILES d) = subdirs_for role_name pos file_list
  /\ (forall p k post,
        In p file_list ->
        path_dirs (parts_of role_name p) = pos ++ k :: post ->
        In k (Dict.keys (Dict.remove FILES d))).
Proof.
  intros Hfree H Hat.
  pose proof (@analyze_tidy _ _ _ Hfree H) as Ht.
  pose proof (@dir_at_tidy pos _ _ Ht Hat) as Hd.
  assert (Dict.keys (Dict.remove FILES d)
          = subdirs_for role_name pos file_list) as Hkeys.
  { rewrite <- (analyze_subdirs_at _ _ pos H). unfold subdirs_at.
    now rewrite Hat. }
  split; [|split; [|split; [|split]]].
  - rewrite (@tidy_popped_files _ Hd), <- (@files_at_node _ _ _ Hat).
    f_equal. now apply analyze_files_at.
  - intros k v Hin. now apply tidy_children_dicts with d k.
  - apply level_layout_built. now apply tidy_built.
  - exact Hkeys.
  - intros p k post Hin Hdirs. rewrite Hkeys. unfold subdirs_for.
    apply in_fold_add_new. right. exists p. split; [exact Hin|].
    rewrite Hdirs, next_dir_app.
    assert (k <> FILES) as Hk.
    { intros ->. rewrite Forall_forall in Hfree. apply (Hfree p Hin).
      apply path_dirs_strip with role_name.
      fold (parts_of role_name p). rewrite Hdirs.
      apply in_or_app. right. now left. }
    apply String.eqb_neq in Hk. now rewrite String.eqb_sym, Hk.
Qed.

Lemma C4_level_layout_of_built_witness :
  popped_files
    [("s", VDict [(FILES, VList ["x"])]);
     ("b", VDict [(FILES, VList ["y"])]);
     (FILES, VList ["z.yml"; "a.yml"])]
  = VList (files_for "" ["d"] ["d/s/x"; "d/b/y"; "d/z.yml"; "d/a.yml"])
  /\ (forall k v,
        In (k, v)
          (Dict.remove FILES
             [("s", VDict [(FILES, VList ["x"])]);
              ("b", VDict [(FILES, VList ["y"])]);
              (FILES, VList ["z.yml"; "a.yml"])]) ->
        is_dict v = true)
  /\ level_layout
       [("s", VDict [(FILES, VList ["x"])]);
        ("b", VDict [(FILES, VList ["y"])]);
        (FILES, VList ["z.yml"; "a.yml"])] "/d" true "    "
  /\ Dict.keys
       (Dict.remove FILES
          [("s", VDict [(FILES, VList ["x"])]);
           ("b", VDict [(FILES, VList ["y"])]);
           (FILES, VList ["z.yml"; "a.yml"])])
     = subdirs_for "" ["d"] ["d/s/x"; "d/b/y"; "d/z.yml"; "d/a.yml"]
  /\ (forall p k post,
        In p ["d/s/x"; "d/b/y"; "d/z.yml"; "d/a.yml"] ->
        path_dirs (parts_of "" p) = ["d"] ++ k :: post ->
        In k
          (Dict.keys
             (Dict.remove FILES
                [("s", VDict [(FILES, VList ["x"])]);
                 ("b", VDict [(FILES, VList ["y"])]);
                 (FILES, VList ["z.yml"; "a.yml"])]))).
Proof.
  apply (@C4_level_layout_of_built ""
           ["d/s/x"; "d/b/y"; "d/z.yml"; "d/a.yml"]
           (VDict
              [("d",
                VDict
                  [("s", VDict [(FILES, VList ["x"])]);
                   ("b", VDict [(FILES, VList ["y"])]);
                   (FILES, VList ["z.yml"; "a.yml"])])])
           ["d"]).
  - repeat constructor; unfold marker_free; simpl;
      intros H; repeat (destruct H as [H|H]; [discriminate|]); exact H.
  - reflexivity.
  - reflexivity.
Defined.

(** Against C4 as stated: two files at the first level are rendered
    without any glyph. *)
Lemma C4_first_level_bare :
  tree_text "" ["z.yml"; "a.yml"] = Ok (join newline ["a.yml"; "z.yml"])
  /\ tree_text "" ["z.yml"; "a.yml"]
     <> Ok (join newline ["├── a.yml"; "└── z.yml"]).
Proof. split; [vm_compute; reflexivity | vm_compute; discriminate]. Qed.

(** C5, as amended: on a listing in which no directory is called
    "__files__" the build succeeds, duplicates or not, and the files of a
    node are kept in a list: every path that ends at the node adds its file
    name once more, whether or not the name is stored there already.  A
    name that reaches the node k times is stored k times, and the text the
    renderer returns for the node has, after the lines of the directories,
    one line for each stored entry, in ascending order: k lines for that
    name. *)
Theorem C5_files_keep_duplicates role_name file_list :
  Forall marker_free file_list ->
  exists t,
    _analyze_structure role_name file_list = Ok t
    /\ tree_text role_name file_list
       = Ok (join newline (render_level t "" ""))
    /\ forall pos d,
         dir_at t pos = Some (VDict d) ->
         let names := sorted (py_iter (popped_files d)) in
         let nd := List.length (Dict.remove FILES d) in
         let total := nd + List.length names in
         popped_files d = VList (files_for role_name pos file_list)
         /\ (forall f,
               count_occ string_dec (py_iter (popped_files d)) f
               = times_listed role_name pos f file_list)
         /\ (forall f,
               count_occ string_dec names f
               = times_listed role_name pos f file_list)
         /\ (forall prefix indent,
               render_level (VDict d) prefix indent
               = render_items render_level total prefix indent 0 d
                 ++ map (fun e =>
                           entry_line prefix indent
                             (S (fst e) =? total)%nat (snd e))
                      (enumerate nd names))
         /\ (forall prefix is_last indent,
               exists t',
                 _format_structure (VDict d) prefix is_last indent
                 = Ok (join newline (render_level (VDict d) prefix indent),
                       t')).
Proof.
  intros Hfree.
  destruct (analyze_total role_name Hfree) as (t & H & _).
  pose proof (@analyze_tidy _ _ _ Hfree H) as Ht.
  exists t. split; [exact H|]. split.
  { destruct (format_structure_lines Ht "" true "") as [[t' Hrun] _].
    unfold tree_text, render. rewrite H. cbn [bind]. now rewrite Hrun. }
  intros pos d Hat names nd total.
  pose proof (@dir_at_tidy pos _ _ Ht Hat) as Hd.
  assert (popped_files d = VList (files_for role_name pos file_list))
    as Hpop.
  { rewrite (@tidy_popped_files _ Hd), <- (@files_at_node _ _ _ Hat).
    f_equal. now apply analyze_files_at. }
  split; [exact Hpop|]. split; [|split; [|split]].
  - intros f. rewrite Hpop. cbn [py_iter]. apply count_files_for.
  - intros f. unfold names.
    rewrite (proj1 (Permutation_count_occ string_dec _ _)
               (sorted_perm (py_iter (popped_files d))) f).
    rewrite Hpop. cbn [py_iter]. apply count_files_for.
  - intros prefix indent. apply render_level_node.
  - intros prefix is_last indent.
    exact (proj1 (format_structure_lines Hd prefix is_last indent)).
Qed.

Lemma C5_files_keep_duplicates_witness :
  exists t,
    _analyze_structure "" ["d/a.txt"; "d/b.txt"; "d/a.txt"] = Ok t
    /\ tree_text "" ["d/a.txt"; "d/b.txt"; "d/a.txt"]
       = Ok (join newline (render_level t "" ""))
    /\ forall pos d,
         dir_at t pos = Some (VDict d) ->
         let names := sorted (py_iter (popped_files d)) in
         let nd := List.length (Dict.remove FILES d) in
         let total := nd + List.length names in
         popped_files d
         = VList (files_for "" pos ["d/a.txt"; "d/b.txt"; "d/a.txt"])
         /\ (forall f,
               count_occ string_dec (py_iter (popped_files d)) f
               = times_listed "" pos f ["d/a.txt"; "d/b.txt"; "d/a.txt"])
         /\ (forall f,
               count_occ string_dec names f
               = times_listed "" pos f ["d/a.txt"; "d/b.txt"; "d/a.txt"])
         /\ (forall prefix indent,
               render_level (VDict d) prefix indent
               = render_items render_level total prefix indent 0 d
                 ++ map (fun e =>
                           entry_line prefix indent
                             (S (fst e) =? total)%nat (snd e))
                      (enumerate nd names))
         /\ (forall prefix is_last indent,
               exists t',
                 _format_structure (VDict d) prefix is_last indent
                 = Ok (join newline (render_level (VDict d) prefix indent),
                       t')).
Proof.
  apply (@C5_files_keep_duplicates "" ["d/a.txt"; "d/b.txt"; "d/a.txt"]).
  repeat constructor; unfold marker_free; simpl;
    intros H; repeat (destruct H as [H|H]; [discriminate|]); exact H.
Defined.

(** Against C5 as stated: the same path twice is stored twice and rendered
    as two lines. *)
Lemma C5_duplicate_rendered_twice :
  _analyze_structure "" ["a.txt"; "a.txt"]
  = Ok (VDict [(FILES, VList ["a.txt"; "a.txt"])])
  /\ tree_text "" ["a.txt"; "a.txt"] = Ok (join newline ["a.txt"; "a.txt"]).
Proof. split; vm_compute; reflexivity. Qed.

(** C6, as amended: in a tree built from a listing in which no directory
    is called "__files__", directories are the keys of a node and file
    names the entries of its "__files__" list, and neither displaces the
    other: every path of the input keeps its file entry at the node where
    it ends, that node is a directory, and every directory on the way of
    the path is a key of its parent with a dict below it.  So a name can be
    a directory and a file of the same node. *)
Theorem C6_nothing_dropped role_name file_list t file_path :
  Forall marker_free file_list ->
  _analyze_structure role_name file_list = Ok t ->
  In file_path file_list ->
  (forall f,
      path_file (parts_of role_name file_path) = Some f ->
      has_file t (path_dirs (parts_of role_name file_path)) f)
  /\ has_dir t (path_dirs (parts_of role_name file_path))
  /\ (forall pre k post,
        path_dirs (parts_of role_name file_path) = pre ++ k :: post ->
        In k (subdirs_at t pre) /\ has_dir t (pre ++ [k])).
Proof.
  intros Hfree H Hin.
  pose proof (@analyze_tidy _ _ _ Hfree H) as Ht.
  assert (forall pre k post,
             path_dirs (parts_of role_name file_path) = pre ++ k :: post ->
             In k (subdirs_at t pre) /\ has_dir t (pre ++ [k])) as Hdirs.
  { intros pre k post Hd.
    assert (In k (subdirs_at t pre)) as Hk.
    { rewrite (analyze_subdirs_at _ _ pre H). unfold subdirs_for.
      apply in_fold_add_new. right. exists file_path.
      split; [exact Hin|]. rewrite Hd, next_dir_app.
      assert (k <> FILES) as Hne.
      { intros ->. rewrite Forall_forall in Hfree.
        apply (Hfree file_path Hin).
        apply path_dirs_strip with role_name.
        fold (parts_of role_name file_path). rewrite Hd.
        apply in_or_app. right. now left. }
      apply String.eqb_neq in Hne. now rewrite String.eqb_sym, Hne. }
    split; [exact Hk | now apply subdir_is_dir]. }
  split; [|split; [|exact Hdirs]].
  - intros f Hf. unfold has_file.
    rewrite (analyze_files_at _ _ _ H). unfold files_for.
    apply in_flat_map. exists file_path. split; [exact Hin|].
    unfold file_here. rewrite pos_eqb_refl, Hf. now left.
  - destruct (path_dirs (parts_of role_name file_path)) as [|k0 ds] eqn:E.
    + destruct Ht as [d0 _]. now exists d0.
    + assert (k0 :: ds <> []) as Hne by discriminate.
      destruct (exists_last Hne) as (pre & k & Hlast).
      rewrite Hlast. apply (Hdirs pre k []). exact Hlast.
Qed.

Lemma C6_nothing_dropped_witness :
  (forall f,
      path_file (parts_of "" "a/b") = Some f ->
      has_file
        (VDict [(FILES, VList ["a"]); ("a", VDict [(FILES, VList ["b"])])])
        (path_dirs (parts_of "" "a/b")) f)
  /\ has_dir
       (VDict [(FILES, VList ["a"]); ("a", VDict [(FILES, VList ["b"])])])
       (path_dirs (parts_of "" "a/b"))
  /\ (forall pre k post,
        path_dirs (parts_of "" "a/b") = pre ++ k :: post ->
        In k (subdirs_at
                (VDict [(FILES, VList ["a"]);
                        ("a", VDict [(FILES, VList ["b"])])]) pre)
        /\ has_dir
             (VDict [(FILES, VList ["a"]);
                     ("a", VDict [(FILES, VList ["b"])])]) (pre ++ [k])).
Proof.
  apply (@C6_nothing_dropped "" ["a"; "a/b"]).
  - repeat constructor; unfold marker_free; simpl;
      intros H; repeat (destruct H as [H|H]; [discriminate|]); exact H.
  - reflexivity.
  - simpl. right. left. reflexivity.
Defined.

(** Against C6 as stated: with the paths a and a/b the root holds the
    directory a and the file a, and both are rendered. *)
Lemma C6_file_and_directory_share_name :
  exists t,
    _analyze_structure "" ["a"; "a/b"] = Ok t
    /\ subdirs_at t [] = ["a"]
    /\ files_at t [] = ["a"]
    /\ render t = Ok (join newline ["a/"; "    └── b"; "a"]).
Proof. eexists. repeat split; vm_compute; reflexivity. Qed.

(** C7, as amended: a path of more than one segment whose first segment is
    the role name loses that segment before insertion, so that role/p is
    inserted as p is (for p that does not itself lose a segment); a path
    that consists of the role name alone is not stripped and is recorded as
    a file of the root. *)
Theorem C7_leading_role_name role_name :
  slash_free role_name = true ->
  (forall p, parts_of role_name (role_name ++ "/" ++ p) = split slash p)
  /\ (forall p t,
        parts_of role_name p = split slash p ->
        add_path role_name t (role_name ++ "/" ++ p)
        = add_path role_name t p)
  /\ (nonempty role_name = true ->
      forall t, add_path role_name t role_name = add_file role_name t).
Proof.
  intros Hfree.
  assert (Hparts : forall p,
             parts_of role_name (role_name ++ "/" ++ p) = split slash p).
  { intros p. unfold parts_of.
    change ("/" ++ p)%string with (String slash p).
    rewrite split_app_slash by exact Hfree. unfold strip_role_name.
    destruct (split slash p) eqn:E; [now apply split_not_nil in E|].
    now rewrite String.eqb_refl. }
  split; [exact Hparts|]. split.
  - intros p t Hp. unfold add_path. fold (parts_of role_name p).
    fold (parts_of role_name (role_name ++ "/" ++ p)).
    now rewrite Hparts, Hp.
  - intros Hne t. unfold add_path. rewrite split_slash_free by exact Hfree.
    cbn [strip_role_name List.length walk Nat.sub Nat.eqb andb].
    rewrite Hne. apply bind_ret.
Qed.

Lemma C7_leading_role_name_witness :
  add_path "myrole" (VDict []) "myrole/tasks/main.yml"
  = add_path "myrole" (VDict []) "tasks/main.yml"
  /\ add_path "myrole" (VDict []) "myrole" = add_file "myrole" (VDict []).
Proof.
  destruct (@C7_leading_role_name "myrole" eq_refl) as (_ & Hstrip & Hsingle).
  split.
  - apply (Hstrip "tasks/main.yml" (VDict [])). reflexivity.
  - apply (Hsingle eq_refl).
Defined.

(** Against C7 as stated: the path "myrole" alone adds the file myrole to
    the root. *)
Lemma C7_single_segment_kept :
  _analyze_structure "myrole" ["myrole"]
  = Ok (VDict [(FILES, VList ["myrole"])])
  /\ _analyze_structure "myrole" ["myrole"] <> _analyze_structure "myrole" [].
Proof. split; [vm_compute; reflexivity | vm_compute; discriminate]. Qed.

(** C8, as amended: the builder splits on the separator and decides by
    position in the split: the last segment, when it is not empty, is the
    file name, and every non-empty segment before it is a directory; empty
    segments are passed over where they stand.  So a path that ends with
    the separator adds no file anywhere, and a path whose every segment is
    empty adds nothing. *)
Theorem C8_segments_by_position role_name file_path t :
  add_path role_name t file_path
  = insert_entry
      (filter nonempty (removelast (parts_of role_name file_path)))
      (if nonempty (last (parts_of role_name file_path) "")
       then Some (last (parts_of role_name file_path) "") else None) t
  /\ (forall t',
        last (parts_of role_name file_path) "" = "" ->
        add_path role_name t file_path = Ok t' ->
        forall pos, files_at t' pos = files_at t pos)
  /\ (Forall (eq "") (split slash file_path) ->
      add_path role_name t file_path = Ok t).
Proof.
  split; [apply add_path_insert_entry|]. split.
  - intros t' Hlast H pos. rewrite add_path_insert_entry in H.
    rewrite (insert_entry_files_at _ _ _ pos H).
    unfold path_file, file_here. rewrite Hlast. cbn [nonempty opt_list].
    destruct (pos_eqb _ _); apply app_nil_r.
  - intros Hempty. rewrite add_path_insert_entry.
    destruct (@all_empty_path (parts_of role_name file_path)) as [-> ->];
      [now apply strip_all_empty | reflexivity].
Qed.

Lemma C8_segments_by_position_witness :
  (forall pos,
      files_at (VDict [("dir", VDict [])]) pos = files_at (VDict []) pos)
  /\ add_path "" (VDict []) "//" = Ok (VDict []).
Proof.
  split.
  - apply (proj1 (proj2 (C8_segments_by_position "" "dir/" (VDict []))));
      reflexivity.
  - apply (proj2 (proj2 (C8_segments_by_position "" "//" (VDict [])))).
    repeat constructor.
Defined.

(** Against C8 as stated: the path dir/ makes the empty directory dir and
    no file. *)
Lemma C8_trailing_separator_directory :
  _analyze_structure "" ["dir/"] = Ok (VDict [("dir", VDict [])])
  /\ ~ (exists t, _analyze_structure "" ["dir/"] = Ok t
                  /\ has_file t [] "dir").
Proof.
  split; [vm_compute; reflexivity|].
  intros (t & Ht & Hf). vm_compute in Ht. injection Ht as <-.
  exact Hf.
Qed.

(** C9: reordering can turn a build into an error.  With a directory entry
    called "__files__" after a file of the same node the build succeeds,
    with the two paths swapped it raises.  (When both orders build, every
    node has the same files and directories: [analyze_permutation].) *)
Theorem C9_reordering_marker_raises :
  Permutation ["myrole/y"; "myrole/__files__/"]
    ["myrole/__files__/"; "myrole/y"]
  /\ _analyze_structure "myrole" ["myrole/y"; "myrole/__files__/"]
     = Ok (VDict [(FILES, VList ["y"])])
  /\ _analyze_structure "myrole" ["myrole/__files__/"; "myrole/y"]
     = Raise AttributeError.
Proof.
  split; [apply perm_swap|]. split; vm_compute; reflexivity.
Qed.

(** C10: when the build of a list with one more path succeeds, so does the
    build of the list, and the larger structure holds every directory and
    every file entry of the smaller one at the same place: the file list and
    the directory list of every node only grow at the end. *)
Theorem C10_monotone role_name file_list file_path t' :
  _analyze_structure role_name (file_list ++ [file_path]) = Ok t' ->
  exists t,
    _analyze_structure role_name file_list = Ok t
    /\ (forall pos, has_dir t pos -> has_dir t' pos)
    /\ (forall pos f, has_file t pos f -> has_file t' pos f)
    /\ (forall pos, exists more, files_at t' pos = files_at t pos ++ more)
    /\ (forall pos, exists more,
          subdirs_at t' pos = subdirs_at t pos ++ more).
Proof.
  unfold _analyze_structure. rewrite add_paths_app. intros H.
  inv_bind H. exists x. split; [exact Hx|].
  apply add_paths_extends in H.
  split; [|split; [|split]].
  - intros pos. now apply extends_has_dir.
  - intros pos f Hf. unfold has_file in *.
    destruct (extends_files_at pos H) as [more ->].
    apply in_or_app. now left.
  - intros pos. now apply extends_files_at.
  - intros pos. now apply extends_subdirs_at.
Qed.

Lemma C10_monotone_witness :
  exists t,
    _analyze_structure "" ["a/x"] = Ok t
    /\ (forall pos,
          has_dir t pos ->
          has_dir (VDict [("a", VDict [(FILES, VList ["x"; "y"])])]) pos)
    /\ (forall pos f,
          has_file t pos f ->
          has_file (VDict [("a", VDict [(FILES, VList ["x"; "y"])])]) pos f)
    /\ (forall pos, exists more,
          files_at (VDict [("a", VDict [(FILES, VList ["x"; "y"])])]) pos
          = files_at t pos ++ more)
    /\ (forall pos, exists more,
          subdirs_at (VDict [("a", VDict [(FILES, VList ["x"; "y"])])]) pos
          = subdirs_at t pos ++ more).
Proof.
  apply (@C10_monotone "" ["a/x"] "a/y"). reflexivity.
Defined.

(** * Further properties of the two scripts *)

(** X1: a listing in which no directory is called "__files__" always builds
    and renders: neither [_analyze_structure] nor [_format_structure]
    raises on it. *)
Theorem X1_marker_free_builds_and_renders role_name file_list :
  Forall marker_free file_list ->
  exists t text,
    _analyze_structure role_name file_list = Ok t
    /\ render t = Ok text
    /\ tree_text role_name file_list = Ok text.
Proof.
  intros Hfree.
  destruct (analyze_total role_name Hfree) as (t & Ht & _).
  destruct (analyze_built _ _ Ht) as [Hb Hd].
  destruct (format_structure_strip Hb Hd "" true "") as [text Htext].
  exists t, text. split; [exact Ht|].
  assert (render t = Ok text) as Hr by (unfold render; now rewrite Htext).
  split; [exact Hr|]. unfold tree_text. now rewrite Ht.
Qed.

Lemma X1_marker_free_builds_and_renders_witness :
  exists t text,
    _analyze_structure "myrole" ["myrole/tasks/main.yml"; "myrole/README.md"]
    = Ok t
    /\ render t = Ok text
    /\ tree_text "myrole" ["myrole/tasks/main.yml"; "myrole/README.md"]
       = Ok text.
Proof.
  apply X1_marker_free_builds_and_renders.
  repeat constructor; unfold marker_free; simpl;
    intros H; repeat (destruct H as [H|H]; [discriminate|]); exact H.
Defined.

(** X2: the order of the listing does not change what a node holds.  When
    both orders build, every node has the same files, as often each, and
    the same directories; and both orders do build when no directory is
    called "__files__". *)
Theorem X2_listing_order_irrelevant role_name ps qs :
  Permutation ps qs ->
  (forall t u,
      _analyze_structure role_name ps = Ok t ->
      _analyze_structure role_name qs = Ok u ->
      forall pos,
        Permutation (files_at t pos) (files_at u pos)
        /\ (forall k, In k (subdirs_at t pos) <-> In k (subdirs_at u pos)))
  /\ (Forall marker_free ps ->
      exists t u,
        _analyze_structure role_name ps = Ok t
        /\ _analyze_structure role_name qs = Ok u).
Proof.
  intros Hperm. split.
  - intros t u Ht Hu pos. now apply analyze_permutation with role_name ps qs.
  - intros Hfree.
    destruct (analyze_total role_name Hfree) as (t & Ht & _).
    destruct (analyze_total role_name (Permutation_Forall Hperm Hfree))
      as (u & Hu & _).
    now exists t, u.
Qed.

Lemma X2_listing_order_irrelevant_witness :
  Permutation
    (files_at (VDict [("b", VDict [(FILES, VList ["x"])]);
                      ("a", VDict [(FILES, VList ["y"])])]) ["a"])
    (files_at (VDict [("a", VDict [(FILES, VList ["y"])]);
                      ("b", VDict [(FILES, VList ["x"])])]) ["a"])
  /\ exists t u,
       _analyze_structure "" ["b/x"; "a/y"] = Ok t
       /\ _analyze_structure "" ["a/y"; "b/x"] = Ok u.
Proof.
  destruct (@X2_listing_order_irrelevant "" ["b/x"; "a/y"] ["a/y"; "b/x"]
              (perm_swap _ _ _)) as [Hsame Hbuild].
  split.
  - apply (Hsame _ _ eq_refl eq_refl ["a"]).
  - apply Hbuild.
    repeat constructor; unfold marker_free; simpl;
      intros H; repeat (destruct H as [H|H]; [discriminate|]); exact H.
Defined.

(** X3: the file list of every node of a built structure is exactly what
    the listing says: the last segments of the paths that end at that node,
    in the order of the listing and once for each such path.  No file name
    appears at a node unless a path of the listing ends there with it. *)
Theorem X3_files_exactly_as_listed role_name file_list t :
  _analyze_structure role_name file_list = Ok t ->
  (forall pos, files_at t pos = files_for role_name pos file_list)
  /\ (forall pos f,
        has_file t pos f
        <-> exists p,
            In p file_list
            /\ path_dirs (parts_of role_name p) = pos
            /\ path_file (parts_of role_name p) = Some f).
Proof.
  intros H. split; [intros pos; now apply analyze_files_at|].
  intros pos f. unfold has_file.
  rewrite (analyze_files_at _ _ pos H). unfold files_for, file_here.
  rewrite in_flat_map. split.
  - intros (p & Hin & Hf). exists p. split; [exact Hin|].
    destruct (pos_eqb pos (path_dirs (parts_of role_name p))) eqn:E;
      [|destruct Hf].
    apply pos_eqb_eq in E.
    destruct (path_file (parts_of role_name p)) as [f0|]; [|destruct Hf].
    destruct Hf as [<-|[]]. now split.
  - intros (p & Hin & <- & Hf). exists p. split; [exact Hin|].
    rewrite pos_eqb_refl, Hf. now left.
Qed.

Lemma X3_files_exactly_as_listed_witness :
  (forall pos,
      files_at (VDict [("a", VDict [(FILES, VList ["x"; "y"])])]) pos
      = files_for "" pos ["a/x"; "a/y"])
  /\ (forall pos f,
        has_file (VDict [("a", VDict [(FILES, VList ["x"; "y"])])]) pos f
        <-> exists p,
            In p ["a/x"; "a/y"]
            /\ path_dirs (parts_of "" p) = pos
            /\ path_file (parts_of "" p) = Some f).
Proof.
  apply (@X3_files_exactly_as_listed "" ["a/x"; "a/y"]). reflexivity.
Defined.

(** X4: the role name the zip script takes from the listing never contains
    the separator and is never ".": it is the leading directory of the
    first listed name, and empty when the listing is empty. *)
Theorem X4_role_name_of_listing file_list :
  slash_free (ZipScript.role_name_of file_list) = true
  /\ ZipScript.role_name_of file_list <> "."
  /\ (file_list = [] -> ZipScript.role_name_of file_list = "")
  /\ (forall r q rest,
        file_list = (r ++ "/" ++ q)%string :: rest ->
        slash_free r = true -> nonempty r = true -> r <> "." ->
        ZipScript.role_name_of file_list = r).
Proof.
  split; [|split; [|split]].
  - destruct file_list as [|first rest]; [reflexivity|].
    cbn [ZipScript.role_name_of].
    pose proof (split_segments_slash_free first) as Hseg.
    destruct (split slash first) as [|seg tl]; [reflexivity|].
    cbn [hd]. destruct (nonempty seg && negb (String.eqb seg "."));
      [now inversion Hseg | reflexivity].
  - destruct file_list as [|first rest]; [discriminate|].
    cbn [ZipScript.role_name_of].
    destruct (split slash first) as [|seg tl]; [discriminate|].
    cbn [hd]. destruct (String.eqb seg ".") eqn:E.
    + rewrite andb_false_r. discriminate.
    + apply String.eqb_neq in E.
      destruct (nonempty seg); [exact E | discriminate].
  - now intros ->.
  - intros r q rest -> Hfree Hne Hdot.
    cbn [ZipScript.role_name_of].
    rewrite split_role_prefix by exact Hfree. cbn [hd].
    apply String.eqb_neq in Hdot. now rewrite Hne, Hdot.
Qed.

Lemma X4_role_name_of_listing_witness :
  ZipScript.role_name_of ["myrole/tasks/main.yml"; "myrole/README.md"]
  = "myrole".
Proof.
  apply (proj2 (proj2 (proj2
           (X4_role_name_of_listing
              ["myrole/tasks/main.yml"; "myrole/README.md"])))
           "myrole" "tasks/main.yml" ["myrole/README.md"]);
    [reflexivity | reflexivity | reflexivity | discriminate].
Defined.

(** X5: for an archive whose names all lie below one leading directory r,
    [extract_role_info] takes r for the role name, and the structure it
    returns is that of the names relative to r: the leading r is taken off
    every name, and every node holds the files and directories the relative
    names put there. *)
Theorem X5_structure_of_relative_names (Y : Type) (load : string -> option Y)
  r qs info :
  slash_free r = true -> nonempty r = true -> r <> "." -> qs <> [] ->
  ZipScript.extract_role_info load (map (fun q => r ++ "/" ++ q)%string qs)
  = Ok info ->
  ZipScript.name info = r
  /\ forall pos,
       files_at (ZipScript.structure info) pos
       = flat_map
           (fun q =>
              file_here pos (path_dirs (split slash q))
                (path_file (split slash q))) qs
       /\ subdirs_at (ZipScript.structure info) pos
          = fold_left
              (fun seen q =>
                 add_new seen (next_dir pos (path_dirs (split slash q))))
              qs [].
Proof.
  intros Hfree Hne Hdot Hqs H.
  assert (Hname : ZipScript.role_name_of
                    (map (fun q => r ++ "/" ++ q)%string qs) = r).
  { destruct qs as [|q qs]; [congruence|]. cbn [map ZipScript.role_name_of].
    rewrite split_role_prefix by exact Hfree. cbn [hd].
    apply String.eqb_neq in Hdot. now rewrite Hne, Hdot. }
  unfold ZipScript.extract_role_info in H. rewrite Hname in H.
  inv_bind H. injection H as <-. cbn [ZipScript.name ZipScript.structure].
  split; [reflexivity|]. intros pos. split.
  - rewrite (analyze_files_at _ _ pos Hx). unfold files_for.
    apply flat_map_map_ext. intros q.
    now rewrite parts_of_role_prefix.
  - rewrite (analyze_subdirs_at _ _ pos Hx). unfold subdirs_for.
    apply fold_left_map_ext. intros seen q.
    now rewrite parts_of_role_prefix.
Qed.

Lemma X5_structure_of_relative_names_witness :
  exists info : ZipScript.role_info unit,
    ZipScript.extract_role_info (fun _ => None)
      ["myrole/tasks/main.yml"; "myrole/README.md"] = Ok info
    /\ ZipScript.name info = "myrole"
    /\ forall pos,
         files_at (ZipScript.structure info) pos
         = flat_map
             (fun q =>
                file_here pos (path_dirs (split slash q))
                  (path_file (split slash q)))
             ["tasks/main.yml"; "README.md"]
         /\ subdirs_at (ZipScript.structure info) pos
            = fold_left
                (fun seen q =>
                   add_new seen (next_dir pos (path_dirs (split slash q))))
                ["tasks/main.yml"; "README.md"] [].
Proof.
  eexists. split; [reflexivity|].
  apply (@X5_structure_of_relative_names unit (fun _ => None) "myrole"
           ["tasks/main.yml"; "README.md"]);
    [reflexivity | reflexivity | discriminate | discriminate | reflexivity].
Defined.

(** X6: the zip script reports t as a template exactly when the listing
    holds the name role/templates/t; t is then never empty and never ends
    with the separator, so the entries the archive has for directories are
    not reported. *)
Theorem X6_zip_templates role_name file_list t :
  In t (ZipScript._find_templates role_name file_list)
  <-> In (role_name ++ "/templates/" ++ t)%string file_list
      /\ t <> ""
      /\ endswith_char t slash = false.
Proof. apply zip_templates_in. Qed.

(** X7: every template the zip script reports is a file of the structure
    it builds from the same listing: below the directory templates, at the
    node of its directories, under its last segment. *)
Theorem X7_zip_templates_are_files role_name file_list t tree :
  slash_free role_name = true ->
  _analyze_structure role_name file_list = Ok tree ->
  In t (ZipScript._find_templates role_name file_list) ->
  last (split slash t) "" <> ""
  /\ has_file tree ("templates" :: path_dirs (split slash t))
       (last (split slash t) "").
Proof.
  intros Hfree Htree Hin.
  apply zip_templates_in in Hin as (Hin & Hne & Hend).
  pose proof (last_split_not_empty Hne Hend) as Hlast.
  split; [exact Hlast|].
  unfold has_file. rewrite (analyze_files_at _ _ _ Htree). unfold files_for.
  apply in_flat_map. eexists. split; [exact Hin|].
  change ("/templates/" ++ t)%string with ("/" ++ "templates/" ++ t)%string.
  rewrite parts_of_role_prefix by exact Hfree.
  change ("templates/" ++ t)%string with ("templates" ++ String slash t)%string.
  rewrite split_app_slash by reflexivity.
  rewrite path_dirs_cons, path_file_cons;
    [|apply split_not_nil|apply split_not_nil|reflexivity].
  unfold file_here, path_file. rewrite pos_eqb_refl.
  destruct (last (split slash t) "") as [|c l]; [congruence|].
  now left.
Qed.

Lemma X7_zip_templates_are_files_witness :
  last (split slash "conf/app.j2") "" <> ""
  /\ has_file
       (VDict [("templates",
                VDict [("conf", VDict [(FILES, VList ["app.j2"])])])])
       ("templates" :: path_dirs (split slash "conf/app.j2"))
       (last (split slash "conf/app.j2") "").
Proof.
  apply (@X7_zip_templates_are_files "myrole"
           ["myrole/templates/conf/app.j2"]);
    [reflexivity | reflexivity | simpl; left; reflexivity].
Defined.

(** X8: [_find_templates] of the directory script never raises: the test
    [templates_prefix in filename] makes element 1 of the split exist.  It
    reports one entry for each listed name that contains the prefix. *)
Theorem X8_dir_templates_total role_name file_list :
  exists ts,
    DirScript._find_templates role_name file_list = Some ts
    /\ List.length ts
       = List.length
           (filter (contains (role_name ++ "/templates/")) file_list).
Proof.
  unfold DirScript._find_templates.
  induction file_list as [|f tl (ts & IH & Hlen)].
  - now exists [].
  - cbn [filter].
    destruct (contains (role_name ++ "/templates/") f) eqn:Hc.
    + destruct (@dir_templates_step _ f tl
                  (templates_prefix_not_empty role_name) Hc)
        as (a & t & rest & _ & _ & _ & _ & ->).
      rewrite IH. exists (t :: ts). split; [reflexivity|].
      simpl. now rewrite Hlen.
    + cbn [DirScript.find_templates_loop]. rewrite Hc. now exists ts.
Qed.

(** X9: on a listing in which the prefix role/templates/ occurs only at the
    start of a name, and in which no such name ends with the separator or
    with the prefix, the two scripts report the same templates. *)
Theorem X9_templates_agree role_name file_list :
  Forall
    (fun f =>
       contains (role_name ++ "/templates/") f = false
       \/ exists t,
           f = (role_name ++ "/templates/" ++ t)%string
           /\ contains (role_name ++ "/templates/") t = false
           /\ t <> ""
           /\ endswith_char t slash = false)
    file_list ->
  DirScript._find_templates role_name file_list
  = Some (ZipScript._find_templates role_name file_list).
Proof.
  unfold DirScript._find_templates, ZipScript._find_templates.
  induction 1 as [|f tl Hf _ IH]; [reflexivity|].
  cbn [DirScript.find_templates_loop flat_map].
  destruct Hf as [Hc|(t & -> & Hc & Hne & Hend)].
  - rewrite Hc, IH.
    destruct (startswith f (role_name ++ "/templates/")) eqn:Hs;
      [|reflexivity].
    apply startswith_contains in Hs. congruence.
  - rewrite <- templates_prefix_assoc.
    rewrite (startswith_contains _ _ (startswith_append _ _)).
    rewrite py_split_here by apply templates_prefix_not_empty.
    rewrite (@py_split_none _ _ Hc). cbn [nth_error].
    rewrite IH, startswith_append.
    rewrite endswith_char_append by exact Hne.
    rewrite Hend, drop_append. reflexivity.
Qed.

Lemma X9_templates_agree_witness :
  DirScript._find_templates "myrole"
    ["myrole/README.md"; "myrole/templates/app.j2"]
  = Some (ZipScript._find_templates "myrole"
            ["myrole/README.md"; "myrole/templates/app.j2"]).
Proof.
  apply X9_templates_agree.
  constructor; [left; reflexivity|].
  constructor; [|constructor].
  right. exists "app.j2".
  split; [reflexivity|]. split; [reflexivity|].
  split; [discriminate | reflexivity].
Defined.

(** X10: every template the directory script reports is the text between
    the first occurrence of the prefix role/templates/ in a listed name and
    the next occurrence after it (or the end of the name), and nothing but
    that text is: the prefix begins at no earlier position of the name, and
    at no position of the template.  The prefix need not stand at the start
    of the name. *)
Theorem X10_dir_templates_between_prefixes role_name file_list ts t :
  DirScript._find_templates role_name file_list = Some ts ->
  In t ts ->
  exists f,
    In f file_list
    /\ between_first_two (role_name ++ "/templates/") f t
    /\ (forall t',
          between_first_two (role_name ++ "/templates/") f t' -> t' = t).
Proof.
  unfold DirScript._find_templates. revert ts.
  induction file_list as [|f tl IH]; intros ts H Hin.
  - injection H as <-. destruct Hin.
  - assert (Hlift : (exists f0,
                        In f0 tl
                        /\ between_first_two (role_name ++ "/templates/")
                             f0 t
                        /\ (forall t',
                              between_first_two
                                (role_name ++ "/templates/") f0 t' ->
                              t' = t)) ->
                    exists f0,
                      In f0 (f :: tl)
                      /\ between_first_two (role_name ++ "/templates/")
                           f0 t
                      /\ (forall t',
                            between_first_two
                              (role_name ++ "/templates/") f0 t' ->
                            t' = t)).
    { intros (f0 & Hf0 & Hrest).
      exists f0. split; [now right | exact Hrest]. }
    destruct (contains (role_name ++ "/templates/") f) eqn:Hc.
    + destruct (@dir_templates_step_exact _ f tl
                  (templates_prefix_not_empty role_name) Hc)
        as (t0 & Hbetween & Hstep).
      rewrite Hstep in H.
      destruct (DirScript.find_templates_loop _ tl) as [ts'|];
        [|discriminate].
      injection H as <-. destruct Hin as [<-|Hin].
      * exists f. split; [now left|]. split; [exact Hbetween|].
        intros t' Ht'. now apply between_first_two_unique with
          (role_name ++ "/templates/")%string f.
      * apply Hlift. now apply IH with ts'.
    + cbn [DirScript.find_templates_loop] in H. rewrite Hc in H.
      apply Hlift. now apply IH with ts.
Qed.

Lemma X10_dir_templates_between_prefixes_witness :
  exists f,
    In f ["s/templates/templates/T"]
    /\ between_first_two ("s" ++ "/templates/") f "templates/T"
    /\ (forall t',
          between_first_two ("s" ++ "/templates/") f t' ->
          t' = "templates/T").
Proof.
  apply (@X10_dir_templates_between_prefixes "s"
           ["s/templates/templates/T"] ["templates/T"]);
    [reflexivity | simpl; left; reflexivity].
Defined.

(** X11: the dicts [_read_tasks] and [_read_vars] of the zip script are
    keyed by base name.  Under each key stands the document of the last
    listed name below role/tasks/ (role/vars/), other than main.yml itself,
    that has this base name; where there is none, the key "main" holds the
    document of main.yml (or None) and no other key exists.  So files of
    the same base name in different subdirectories share a key, and a file
    with the base name "main" takes the place of main.yml. *)
Theorem X11_tasks_by_basename (Y : Type) (load : string -> option Y)
  role_name namelist k :
  assoc_get k (ZipScript._read_tasks load role_name namelist)
  = match find
            (fun f =>
               (startswith f (role_name ++ "/tasks/")
                && negb (String.eqb f (role_name ++ "/tasks/main.yml")))
               && String.eqb (basename f) k)
            (rev namelist)
    with
    | Some f => Some (load f)
    | None =>
        if String.eqb k "main"
        then Some (ZipScript._read_yaml_file load namelist
                     (role_name ++ "/tasks/main.yml"))
        else None
    end
  /\ assoc_get k (ZipScript._read_vars load role_name namelist)
     = match find
               (fun f =>
                  (startswith f (role_name ++ "/vars/")
                   && negb (String.eqb f (role_name ++ "/vars/main.yml")))
                  && String.eqb (basename f) k)
               (rev namelist)
       with
       | Some f => Some (load f)
       | None =>
           if String.eqb k "main"
           then Some (ZipScript._read_yaml_file load namelist
                        (role_name ++ "/vars/main.yml"))
           else None
       end.
Proof.
  assert (Hread : forall f,
             In f (rev namelist) ->
             ZipScript._read_yaml_file load namelist f = load f).
  { intros f Hin. apply in_rev in Hin. unfold ZipScript._read_yaml_file.
    assert (existsb (String.eqb f) namelist = true) as ->; [|reflexivity].
    apply existsb_exists. exists f. split; [exact Hin|].
    apply String.eqb_refl. }
  split.
  - unfold ZipScript._read_tasks. rewrite fold_assoc_get.
    destruct (find _ (rev namelist)) as [f|] eqn:E.
    + apply find_some in E as [Hin _]. now rewrite (Hread f Hin).
    + reflexivity.
  - unfold ZipScript._read_vars. rewrite fold_assoc_get.
    destruct (find _ (rev namelist)) as [f|] eqn:E.
    + apply find_some in E as [Hin _]. now rewrite (Hread f Hin).
    + reflexivity.
Qed.

(** X12: the builder never raises [KeyError]: every lookup
    [current_level[part]] comes after the test that creates the key.  When
    it raises, the exception is [AttributeError] or [TypeError], and some
    name of the listing has a directory segment "__files__". *)
Theorem X12_builder_exceptions role_name file_list e :
  _analyze_structure role_name file_list = Raise e ->
  (e = AttributeError \/ e = TypeError)
  /\ ~ Forall marker_free file_list.
Proof.
  intros H. split.
  - now apply add_paths_raises in H.
  - intros Hfree. destruct (analyze_total role_name Hfree) as (t & Ht & _).
    congruence.
Qed.

Lemma X12_builder_exceptions_witness :
  (AttributeError = AttributeError \/ AttributeError = TypeError)
  /\ ~ Forall marker_free ["myrole/__files__/x"; "myrole/y"].
Proof.
  apply (@X12_builder_exceptions "myrole"
           ["myrole/__files__/x"; "myrole/y"]).
  reflexivity.
Defined.

(** X13: a name without a file part (one that ends with the separator, as
    the entries an archive has for directories) is idempotent: once it has
    gone in, adding it again leaves the structure as it is. *)
Theorem X13_directory_entry_idempotent role_name t file_path t' :
  path_file (parts_of role_name file_path) = None ->
  add_path role_name t file_path = Ok t' ->
  add_path role_name t' file_path = Ok t'.
Proof.
  intros Hfile H. rewrite add_path_insert_entry in *. rewrite Hfile in *.
  now apply insert_dirs_idempotent with t.
Qed.

Lemma X13_directory_entry_idempotent_witness :
  add_path "myrole" (VDict [("tasks", VDict [])]) "myrole/tasks/"
  = Ok (VDict [("tasks", VDict [])]).
Proof.
  apply (@X13_directory_entry_idempotent "myrole" (VDict [])
           "myrole/tasks/");
    reflexivity.
Defined.

(** X14: on a listing in which no directory is called "__files__", the text
    the renderer returns is a plain sequence of lines joined by newlines:
    the nested joins of the subtree texts add no empty line, and there is
    one line for each directory and each file entry of the structure. *)
Theorem X14_text_is_one_line_per_entry role_name file_list :
  Forall marker_free file_list ->
  exists t,
    _analyze_structure role_name file_list = Ok t
    /\ tree_text role_name file_list
       = Ok (join newline (render_level t "" ""))
    /\ List.length (render_level t "" "") = entries t.
Proof.
  intros Hfree.
  destruct (analyze_total role_name Hfree) as (t & Ht & _).
  pose proof (add_paths_tidy role_name Hfree tidy_empty Ht) as Htidy.
  destruct (format_structure_lines Htidy "" true "") as [[t' Hrun] _].
  exists t. split; [exact Ht|]. split.
  - unfold tree_text, render. rewrite Ht. cbn [bind]. now rewrite Hrun.
  - apply render_level_length.
Qed.

Lemma X14_text_is_one_line_per_entry_witness :
  exists t,
    _analyze_structure "myrole" ["myrole/tasks/main.yml"; "myrole/README.md"]
    = Ok t
    /\ tree_text "myrole" ["myrole/tasks/main.yml"; "myrole/README.md"]
       = Ok (join newline (render_level t "" ""))
    /\ List.length (render_level t "" "") = entries t.
Proof.
  apply X14_text_is_one_line_per_entry.
  repeat constructor; unfold marker_free; simpl;
    intros H; repeat (destruct H as [H|H]; [discriminate|]); exact H.
Defined.
